(** * lglr frontend: real-time synchronisation core

    A shallow embedding of the TypeScript client of the lglr repository:
    - [types.ts]                 the domain and push-message types,
    - [api.ts]                   the fetch-based API client,
    - [hooks/useTransactions.ts] the transaction store,
    - [components/Toast.tsx]     the notification subscriber,
    - [hooks/useWebSocket.ts]    the socket message handler,
    - [App.tsx]                  the combined subscriber.

    React state is kept in one record; a state setter called with an
    updater function is the application of that updater to the current
    value.  Asynchronous functions are computations in a state and
    exception monad: a rejected promise is a thrown exception. *)

From stdpp Require Import base option list strings gmap pretty.

Open Scope string_scope.

(** ** JavaScript values used by the client *)

(** Truthiness of a string: only the empty string is falsy. *)
Definition truthy (s : string) : bool := negb (String.eqb s "").

(** Truthiness of an optional string property: [undefined] is falsy. *)
Definition truthy_opt (o : option string) : bool :=
  match o with
  | Some s => truthy s
  | None => false
  end.

(** [a || b] where [a] is an optional string and [b] a string. *)
Definition or_else (a : option string) (b : string) : string :=
  match a with
  | Some s => if truthy s then s else b
  | None => b
  end.

(** [a === b] where [a] is a string and [b] an optional string. *)
Definition strict_eq_opt (a : string) (b : option string) : bool :=
  match b with
  | Some s => String.eqb a s
  | None => false
  end.

(** [s.slice(0, n)] on a string. *)
Definition slice0 (n : nat) (s : string) : string := String.substring 0 n s.

(** Exceptions the client can observe. *)
Inductive exn : Type :=
  | Error (message : string)
  | SyntaxError (message : string)
  | TypeError (message : string).

Definition message_of (e : exn) : string :=
  match e with
  | Error m | SyntaxError m | TypeError m => m
  end.

(** Completion of a call: a value, or a thrown exception
    (for an asynchronous function: resolved or rejected). *)
Inductive Outcome (A : Type) : Type :=
  | Normal (a : A)
  | Threw (e : exn).
Arguments Normal {A} a.
Arguments Threw {A} e.

(** [JSON.parse] followed by the type assertion of the call site
    ([const message: WSMessage = JSON.parse(...)], [request<T>]), and
    [JSON.stringify]: platform functions, taken as parameters.  [None] is a
    text that [JSON.parse] rejects; a decoded value is taken at the asserted
    type. *)
Class FromJSON (T : Type) := JSON_parse : string -> option T.
Class ToJSON (T : Type) := JSON_stringify : T -> string.

(** ** types.ts *)

Inductive TransactionType : Type := ingreso | egreso.

Inductive TransactionStatus : Type := pendiente | procesado | fallido | cancelado.

(** The string literal behind each status. *)
Definition status_literal (s : TransactionStatus) : string :=
  match s with
  | pendiente => "pendiente"
  | procesado => "procesado"
  | fallido => "fallido"
  | cancelado => "cancelado"
  end.

Record Transaction : Type := mkTransaction {
  id : string;
  user_id : string;
  monto : string;
  tipo : TransactionType;
  status : TransactionStatus;
  created_at : string;
  updated_at : string
}.

Record NewTransaction : Type := mkNewTransaction {
  new_user_id : string;
  new_monto : string;
  new_tipo : TransactionType
}.

Inductive KeepaliveTag : Type := keepalive.

Record WSMessage : Type := mkWSMessage {
  event : string;
  transaction_id : option string;
  old_status : option TransactionStatus;
  new_status : option TransactionStatus;
  timestamp : option string;
  type : option KeepaliveTag
}.

(** ** The world the client runs in *)

(** The argument of one [fetch] call: the URL and the init object. *)
Record FetchRequest : Type := mkFetchRequest {
  url : string;
  method : option string;
  body : option string;
  headers : gmap string string
}.

(** The [Response] object: [ok], [status] (here [http_status], the name
    [status] being the transaction's field), and the body that [text()]
    returns and [json()] decodes. *)
Record Response : Type := mkResponse {
  ok : bool;
  http_status : N;
  response_body : string
}.

Record ToastItem : Type := mkToastItem {
  toast_id : string;
  title : string;
  toast_body : string
}.

(** An entry of [console]. *)
Inductive ConsoleLine : Type :=
  | console_warn (label : string) (data : string).

Record World : Type := mkWorld {
  (* crypto.randomUUID: the n-th draw of the process *)
  entropy : nat -> string;
  drawn : nat;
  (* the remote store: its answer to a request, given the earlier ones;
     None is a network failure *)
  server : list FetchRequest -> FetchRequest -> option Response;
  sent : list FetchRequest;
  (* useTransactions *)
  transactions : list Transaction;
  (* useToast: the toasts and the removals scheduled by setTimeout *)
  toasts : list ToastItem;
  timers : list (N * string);
  (* useWebSocket *)
  isMounted : bool;
  isConnected : bool;
  lastMessage : option WSMessage;
  console : list ConsoleLine
}.

Definition set_drawn (n : nat) (w : World) : World :=
  mkWorld (entropy w) n (server w) (sent w) (transactions w) (toasts w)
          (timers w) (isMounted w) (isConnected w) (lastMessage w) (console w).

Definition set_sent (l : list FetchRequest) (w : World) : World :=
  mkWorld (entropy w) (drawn w) (server w) l (transactions w) (toasts w)
          (timers w) (isMounted w) (isConnected w) (lastMessage w) (console w).

Definition set_transactions (l : list Transaction) (w : World) : World :=
  mkWorld (entropy w) (drawn w) (server w) (sent w) l (toasts w)
          (timers w) (isMounted w) (isConnected w) (lastMessage w) (console w).

Definition set_toasts (l : list ToastItem) (w : World) : World :=
  mkWorld (entropy w) (drawn w) (server w) (sent w) (transactions w) l
          (timers w) (isMounted w) (isConnected w) (lastMessage w) (console w).

Definition set_timers (l : list (N * string)) (w : World) : World :=
  mkWorld (entropy w) (drawn w) (server w) (sent w) (transactions w) (toasts w)
          l (isMounted w) (isConnected w) (lastMessage w) (console w).

Definition set_lastMessage (m : option WSMessage) (w : World) : World :=
  mkWorld (entropy w) (drawn w) (server w) (sent w) (transactions w) (toasts w)
          (timers w) (isMounted w) (isConnected w) m (console w).

Definition set_console (l : list ConsoleLine) (w : World) : World :=
  mkWorld (entropy w) (drawn w) (server w) (sent w) (transactions w) (toasts w)
          (timers w) (isMounted w) (isConnected w) (lastMessage w) l.

(** ** Computations: state passing with exceptions *)

Definition M (A : Type) : Type := World -> Outcome A * World.

Definition ret {A} (a : A) : M A := fun w => (Normal a, w).

Definition throw {A} (e : exn) : M A := fun w => (Threw e, w).

Definition bind {A B} (c : M A) (k : A -> M B) : M B :=
  fun w =>
    match c w with
    | (Normal a, w') => k a w'
    | (Threw e, w') => (Threw e, w')
    end.

(** [try { c } catch (e) { h e }] *)
Definition try_catch {A} (c : M A) (h : exn -> M A) : M A :=
  fun w =>
    match c w with
    | (Normal a, w') => (Normal a, w')
    | (Threw e, w') => h e w'
    end.

Definition modify (f : World -> World) : M unit := fun w => (Normal tt, f w).

Declare Scope js_scope.
Delimit Scope js_scope with js.
Notation "x <- c ;; k" := (bind c (fun x => k))
  (at level 100, c at next level, right associativity) : js_scope.
Notation "c ;;; k" := (bind c (fun _ => k))
  (at level 100, right associativity) : js_scope.
Open Scope js_scope.

(** [crypto.randomUUID()] *)
Definition randomUUID : M string :=
  fun w => (Normal (entropy w (drawn w)), set_drawn (S (drawn w)) w).

(** [fetch(url, init)]: rejects with a TypeError on a network failure. *)
Definition fetch (req : FetchRequest) : M Response :=
  fun w =>
    let w' := set_sent (sent w ++ [req]) w in
    match server w (sent w) req with
    | Some r => (Normal r, w')
    | None => (Threw (TypeError "Failed to fetch"), w')
    end.

(** [response.text()] *)
Definition text (r : Response) : M string := ret (response_body r).

(** [response.json()]: rejects with a SyntaxError when the body does not
    decode. *)
Definition json {T} `{FromJSON T} (r : Response) : M T :=
  match JSON_parse (response_body r) with
  | Some v => ret v
  | None => throw (SyntaxError "Unexpected token in JSON")
  end.

(** [setTransactions(updater)] and its siblings. *)
Definition setTransactions (updater : list Transaction -> list Transaction) : M unit :=
  modify (fun w => set_transactions (updater (transactions w)) w).

Definition setToasts (updater : list ToastItem -> list ToastItem) : M unit :=
  modify (fun w => set_toasts (updater (toasts w)) w).

Definition setLastMessage (m : WSMessage) : M unit :=
  modify (set_lastMessage (Some m)).

(** [setTimeout(() => setToasts(prev => prev.filter(t => t.id !== id)), ms)] *)
Definition setTimeout_remove_toast (i : string) (ms : N) : M unit :=
  modify (fun w => set_timers (timers w ++ [(ms, i)]) w).

Definition console_warn_ (label data : string) : M unit :=
  modify (fun w => set_console (console w ++ [console_warn label data]) w).

(** ** api.ts *)

Module Api.

Definition API_BASE : string := "/api".

(** The [RequestInit] passed by the callers of [request]. *)
Record RequestInit : Type := mkRequestInit {
  init_method : option string;
  init_body : option string;
  init_headers : option (gmap string string)
}.

Definition no_options : RequestInit := mkRequestInit None None None.

(** The arguments [request] passes to [fetch]: the base path followed by
    [path], and the options with the [Content-Type] header merged under
    the caller's headers ([{ 'Content-Type': ..., ...optionsHeaders }]). *)
Definition fetch_args (path : string) (options : RequestInit) : FetchRequest :=
  let optionsHeaders := default ∅ (init_headers options) in
  mkFetchRequest (API_BASE +:+ path)
                 (init_method options) (init_body options)
                 (optionsHeaders ∪ {[ "Content-Type" := "application/json" ]}).

Definition request {T} `{FromJSON T} (path : string) (options : RequestInit) : M T :=
  response <- fetch (fetch_args path options) ;;
  if negb (ok response) then
    error <- text response ;;
    throw (Error (if truthy error then error
                  else "HTTP " +:+ pretty (http_status response)))
  else
    json response.

Definition listTransactions `{FromJSON (list Transaction)} (limit : N)
  : M (list Transaction) :=
  request ("/transactions?limit=" +:+ pretty limit) no_options.

Definition createTransaction `{FromJSON Transaction} `{ToJSON NewTransaction}
    (data : NewTransaction) : M Transaction :=
  idempotencyKey <- randomUUID ;;
  request "/transactions/create"
    (mkRequestInit (Some "POST") (Some (JSON_stringify data))
                   (Some {[ "Idempotency-Key" := idempotencyKey ]})).

Record Job : Type := mkJob { job_id : string }.

Definition processTransaction `{FromJSON Job} (transactionId : string) : M Job :=
  request ("/transactions/async-process?transaction_id=" +:+ transactionId)
    (mkRequestInit (Some "POST") None None).

End Api.

(** A subscriber of the push channel: [(message: WSMessage) => void]. *)
Definition Subscriber : Type := WSMessage -> M unit.

(** ** hooks/useTransactions.ts *)

Module UseTransactions.

(** The element function of [prev.map(...)] in [handleWSMessage]:
    [tx.id === message.transaction_id && message.new_status
       ? { ...tx, status: message.new_status,
           updated_at: message.timestamp || tx.updated_at }
       : tx].
    Every status literal is a non-empty string, so a present
    [new_status] is truthy. *)
Definition reconcile (message : WSMessage) (tx : Transaction) : Transaction :=
  match strict_eq_opt (id tx) (transaction_id message), new_status message with
  | true, Some s =>
      mkTransaction (id tx) (user_id tx) (monto tx) (tipo tx)
                    s
                    (created_at tx)
                    (or_else (timestamp message) (updated_at tx))
  | _, _ => tx
  end.

Definition handleWSMessage : Subscriber := fun message =>
  if String.eqb (event message) "transaction.status_changed"
     && truthy_opt (transaction_id message)
  then setTransactions (fun prev => map (reconcile message) prev)
  else ret tt.

Definition create `{FromJSON Transaction} `{ToJSON NewTransaction}
    (data : NewTransaction) : M Transaction :=
  tx <- Api.createTransaction data ;;
  setTransactions (fun prev => tx :: prev) ;;;
  ret tx.

Definition process `{FromJSON Api.Job} (i : string) : M unit :=
  _job <- Api.processTransaction i ;;
  ret tt.

End UseTransactions.

(** ** components/Toast.tsx *)

Module Toast.

Definition addToast (title body : string) : M unit :=
  i <- randomUUID ;;
  setToasts (fun prev => (prev ++ [mkToastItem i title body])%list) ;;;
  setTimeout_remove_toast i 4000.

Definition handleWSMessage : Subscriber := fun message =>
  if String.eqb (event message) "transaction.status_changed" then
    let status := or_else (status_literal <$> new_status message) "unknown" in
    let txId := or_else (slice0 8 <$> transaction_id message) "???" in
    addToast ("Transaction " +:+ status) (txId +:+ "... → " +:+ status)
  else ret tt.

End Toast.

(** ** hooks/useWebSocket.ts *)

Module UseWebSocket.

(** [ws.onmessage], for the frame [event.data] and the current value of
    [onMessageRef]. *)
Definition onmessage `{FromJSON WSMessage}
    (onMessage : option Subscriber) (data : string) : M unit :=
  fun w =>
    if negb (isMounted w) then (Normal tt, w)
    else if String.eqb data "pong" then (Normal tt, w)
    else
      try_catch
        (match JSON_parse data with
         | None => throw (SyntaxError "Unexpected token in JSON")
         | Some message =>
             match type message with
             | Some keepalive => ret tt
             | None =>
                 setLastMessage message ;;;
                 match onMessage with
                 | Some subscriber => subscriber message
                 | None => ret tt
                 end
             end
         end)
        (fun _e => console_warn_ "[WS] Failed to parse message:" data)
        w.

End UseWebSocket.

(** ** App.tsx *)

Module App.

(** The combined handler, over the two callbacks the hooks return. *)
Definition onWSMessage (handleWSMessage toastHandler : Subscriber) : Subscriber :=
  fun message =>
    handleWSMessage message ;;;
    toastHandler message.

(** The handler the component passes to [useWebSocket]. *)
Definition subscribers : Subscriber :=
  onWSMessage UseTransactions.handleWSMessage Toast.handleWSMessage.

Definition onmessage `{FromJSON WSMessage} (data : string) : M unit :=
  UseWebSocket.onmessage (Some subscribers) data.

End App.

(** ** Running the client *)

(** Frames reach a subscriber one at a time, in receipt order. *)
Fixpoint deliver (subscriber : Subscriber) (messages : list WSMessage) : M unit :=
  match messages with
  | [] => ret tt
  | message :: rest => subscriber message ;;; deliver subscriber rest
  end.

(** The [new_status] of the last message that carries one, and [s0] when
    none does. *)
Definition last_new_status (s0 : TransactionStatus) (messages : list WSMessage)
  : TransactionStatus :=
  foldl (fun s message => default s (new_status message)) s0 messages.

(** Whether the guard of the store's handler lets the message through. *)
Definition accepted (message : WSMessage) : bool :=
  String.eqb (event message) "transaction.status_changed"
  && truthy_opt (transaction_id message).

(** The values of the [Idempotency-Key] header of the requests sent so far. *)
Definition idempotency_keys (w : World) : list (option string) :=
  map (fun req => headers req !! "Idempotency-Key") (sent w).

(** The state after mount ([useState] initial values, socket open), for a
    given source of UUIDs, remote store and list of transactions. *)
Definition mounted (e : nat -> string)
    (srv : list FetchRequest -> FetchRequest -> option Response)
    (txs : list Transaction) : World :=
  mkWorld e 0 srv [] txs [] [] true true None [].


(** ** Concrete data for the examples *)

Module Demo.

Definition uuids (n : nat) : string := "uuid-" +:+ pretty n.

Definition offline : list FetchRequest -> FetchRequest -> option Response :=
  fun _ _ => None.

Definition always (r : Response) : list FetchRequest -> FetchRequest -> option Response :=
  fun _ _ => Some r.

(** JSON text of a flat object of string fields. *)
Definition dq : string := String (Ascii.ascii_of_nat 34) EmptyString.
Definition quoted (s : string) : string := dq +:+ s +:+ dq.
Fixpoint members (fields : list (string * string)) : string :=
  match fields with
  | [] => ""
  | [(k, v)] => quoted k +:+ ":" +:+ quoted v
  | (k, v) :: rest => quoted k +:+ ":" +:+ quoted v +:+ "," +:+ members rest
  end.
Definition object (fields : list (string * string)) : string :=
  "{" +:+ members fields +:+ "}".

Definition tx1 : Transaction :=
  mkTransaction "tx-1" "user-1" "100.50" ingreso pendiente
                "2025-01-01T00:00:00Z" "2025-01-01T00:00:00Z".

Definition tx2 : Transaction :=
  mkTransaction "tx-2" "user-2" "20.00" egreso pendiente
                "2025-01-02T00:00:00Z" "2025-01-02T00:00:00Z".

(** A stored record whose id is the empty string. *)
Definition tx_noid : Transaction :=
  mkTransaction "" "user-3" "5.00" ingreso pendiente
                "2025-01-03T00:00:00Z" "2025-01-03T00:00:00Z".

Definition data1 : NewTransaction := mkNewTransaction "user-1" "100.50" ingreso.

Definition status_changed (i : string) (s : TransactionStatus) (ts : option string)
  : WSMessage :=
  mkWSMessage "transaction.status_changed" (Some i) (Some pendiente) (Some s) ts None.

(** A status event that carries no [new_status]. *)
Definition status_changed_bare (i : string) : WSMessage :=
  mkWSMessage "transaction.status_changed" (Some i) None None None None.

Definition status_frame : string :=
  object [("event", "transaction.status_changed"); ("transaction_id", "tx-1");
          ("old_status", "pendiente"); ("new_status", "procesado")].

Definition keepalive_frame : string := object [("type", "keepalive")].

Definition tx1_body : string :=
  object [("id", "tx-1"); ("user_id", "user-1"); ("monto", "100.50");
          ("tipo", "ingreso"); ("status", "pendiente");
          ("created_at", "2025-01-01T00:00:00Z");
          ("updated_at", "2025-01-01T00:00:00Z")].

(** Decoders that agree with [JSON.parse] on the texts above, on the
    empty text and on ["not json"] (both rejected). *)
Definition parse_message : FromJSON WSMessage := fun s =>
  if String.eqb s status_frame then Some (status_changed "tx-1" procesado None)
  else if String.eqb s keepalive_frame
       then Some (mkWSMessage "" None None None None (Some keepalive))
       else None.

Definition parse_transaction : FromJSON Transaction := fun s =>
  if String.eqb s tx1_body then Some tx1 else None.

Definition stringify_new : ToJSON NewTransaction := fun d =>
  object [("user_id", new_user_id d); ("monto", new_monto d);
          ("tipo", match new_tipo d with ingreso => "ingreso" | egreso => "egreso" end)].

(** A subscriber that throws. *)
Definition failing : Subscriber := fun _ => throw (TypeError "subscriber failed").

End Demo.

(** ** JavaScript strings *)

(** [s.startsWith(p)] *)
Definition startsWith (p s : string) : bool := String.prefix p s.

(** [s.slice(n)]: the string without its first [n] characters. *)
Fixpoint skip (n : nat) (s : string) : string :=
  match n, s with
  | 0, _ => s
  | S n', String _ s' => skip n' s'
  | S _, EmptyString => EmptyString
  end.

(** [s.replace(pattern, replacement)] for a string pattern and a
    replacement without [$]: only the first occurrence is replaced. *)
Fixpoint replace_first (pattern replacement s : string) : string :=
  if String.prefix pattern s
  then replacement +:+ skip (String.length pattern) s
  else match s with
       | EmptyString => EmptyString
       | String c s' => String c (replace_first pattern replacement s')
       end.

(** [s.replace(/^p/, '')] for a literal [p]: a leading [p] is removed. *)
Definition strip_leading (p s : string) : string :=
  if String.prefix p s then skip (String.length p) s else s.

(** A handler of a component: it reads and writes the component's own state
    [S] besides the world, and completes normally or by an exception. *)
Definition Handler (S : Type) : Type := S -> World -> Outcome unit * S * World.

(** ** hooks/useTransactions.ts: the loading state and [refresh] *)

Module TransactionsHook.

Record State : Type := mkState {
  isLoading : bool;
  error : option string
}.

(** [useState(true)], [useState(null)] *)
Definition initial : State := mkState true None.

(** [refresh]: [try { setError(null); data = await listTransactions();
    setTransactions(data) } catch (e) { setError(e.message) }
    finally { setIsLoading(false) }].  Every exception of the client is an
    [Error] instance, so the fallback text is never used. *)
Definition refresh `{FromJSON (list Transaction)} : Handler State := fun s w =>
  let s1 := mkState (isLoading s) None in
  match Api.listTransactions 50 w with
  | (Normal data, w1) =>
      (Normal tt, mkState false (error s1), set_transactions data w1)
  | (Threw e, w1) =>
      (Normal tt, mkState false (Some (message_of e)), w1)
  end.

End TransactionsHook.

(** ** components/Toast.tsx: the scheduled removals *)

Module ToastTimers.

(** The callback given to [setTimeout]:
    [setToasts(prev => prev.filter(t => t.id !== id))]. *)
Definition expire (i : string) : M unit :=
  setToasts (fun prev => List.filter (fun t => negb (String.eqb (toast_id t) i)) prev).

(** The oldest scheduled removal fires (all have the same delay). *)
Definition fire : M unit := fun w =>
  match timers w with
  | [] => (Normal tt, w)
  | (_, i) :: rest => expire i (set_timers rest w)
  end.

(** [n] removals fire, oldest first. *)
Fixpoint fire_n (n : nat) : M unit :=
  match n with
  | 0 => ret tt
  | S n' => fire ;;; fire_n n'
  end.

End ToastTimers.

(** ** App.tsx: the selection *)

Module Selection.

(** [selectedTransaction]:
    [if (!selectedId) return null;
     return transactions.find(tx => tx.id === selectedId) || null]. *)
Definition selectedTransaction (selectedId : option string)
    (txs : list Transaction) : option Transaction :=
  if negb (truthy_opt selectedId) then None
  else List.find (fun tx => strict_eq_opt (id tx) selectedId) txs.

(** [handleCreate]: [const tx = await create(data); setSelectedId(tx.id)] *)
Definition handleCreate `{FromJSON Transaction} `{ToJSON NewTransaction}
    (data : NewTransaction) : Handler (option string) := fun selectedId w =>
  match UseTransactions.create data w with
  | (Normal tx, w') => (Normal tt, Some (id tx), w')
  | (Threw e, w') => (Threw e, selectedId, w')
  end.

(** [handleProcess]: [await process(id)] *)
Definition handleProcess `{FromJSON Api.Job} (i : string) : Handler (option string) :=
  fun selectedId w =>
    match UseTransactions.process i w with
    | (r, w') => (r, selectedId, w')
    end.

(** [handleSelect]: [setSelectedId(tx.id)] *)
Definition handleSelect (tx : Transaction) : option string := Some (id tx).

End Selection.

(** ** components/TransactionForm.tsx *)

Module TransactionForm.

Record State : Type := mkState {
  monto : string;
  tipo : TransactionType;
  isSubmitting : bool
}.

(** [useState('')], [useState('ingreso')], [useState(false)] *)
Definition initial : State := mkState "" ingreso false.

(** [handleSubmit], for the [onSubmit] of the parent, whose state is [P]:
    [if (!monto || isSubmitting) return;
     setIsSubmitting(true);
     try { await onSubmit({ user_id: crypto.randomUUID(), monto, tipo });
           setMonto('') }
     finally { setIsSubmitting(false) }]. *)
Definition handleSubmit {P : Type} (onSubmit : NewTransaction -> Handler P)
  : Handler (State * P) := fun '(s, p) w =>
  if negb (truthy (monto s)) || isSubmitting s then (Normal tt, (s, p), w)
  else
    match randomUUID w with
    | (Threw e, w0) => (Threw e, (mkState (monto s) (tipo s) false, p), w0)
    | (Normal user_id, w0) =>
        match onSubmit (mkNewTransaction user_id (monto s) (tipo s)) p w0 with
        | (Normal _, p', w') => (Normal tt, (mkState "" (tipo s) false, p'), w')
        | (Threw e, p', w') => (Threw e, (mkState (monto s) (tipo s) false, p'), w')
        end
    end.

(** The form as the application mounts it: [onSubmit={handleCreate}]. *)
Definition submit `{FromJSON Transaction} `{ToJSON NewTransaction}
  : Handler (State * option string) :=
  handleSubmit Selection.handleCreate.

End TransactionForm.

(** ** components/TransactionList.tsx *)

(** [Intl.NumberFormat('en-US', {style: 'currency', currency: 'USD'})
    .format(parseFloat(amount))] and [new Date(iso).toLocaleTimeString(...)]:
    platform functions, taken as parameters. *)
Class Intl : Type := {
  currency_en_US : string -> string;
  time_en_US : string -> string
}.

Module TransactionList.

Definition formatAmount `{Intl} (amount : string) : string := currency_en_US amount.
Definition formatTime `{Intl} (isoString : string) : string := time_en_US isoString.
Definition formatId (i : string) : string := slice0 8 i.

(** One rendered card: its key, whether it carries the [selected] class,
    what a click on it selects, the texts it shows, and the id its Process
    button passes to [onProcess] when the button is rendered. *)
Record Card : Type := mkCard {
  key : string;
  selected : bool;
  onClick : Transaction;
  status_class : TransactionStatus;
  shown_id : string;
  shown_tipo : TransactionType;
  shown_amount : string;
  shown_time : string;
  process_button : option string
}.

Inductive View : Type :=
  | Loading
  | EmptyState
  | Cards (cards : list Card).

Definition card `{Intl} (selectedId : option string) (tx : Transaction) : Card :=
  mkCard (id tx)
         (strict_eq_opt (id tx) selectedId)
         tx
         (status tx)
         (formatId (id tx))
         (tipo tx)
         (formatAmount (monto tx))
         (formatTime (created_at tx))
         (match status tx with pendiente => Some (id tx) | _ => None end).

(** The component, for its props [transactions], [selectedId] and
    [isLoading] (the callbacks are what the cards carry). *)
Definition render `{Intl} (txs : list Transaction) (selectedId : option string)
    (isLoading : option bool) : View :=
  if default false isLoading then Loading
  else match txs with
       | [] => EmptyState
       | _ => Cards (map (card selectedId) txs)
       end.

End TransactionList.

Module DemoView.

(** Stand-ins for the two platform formatters, for the examples. *)
Definition intl : Intl :=
  {| currency_en_US := fun amount => "$" +:+ amount;
     time_en_US := fun isoString => isoString |}.

End DemoView.

(** ** vite.config.ts *)

Module Vite.

(** [process.env.VITE_API_URL || 'http://localhost:8000'] *)
Definition apiTarget (VITE_API_URL : option string) : string :=
  or_else VITE_API_URL "http://localhost:8000".

(** [apiTarget.replace('http', 'ws')] *)
Definition wsTarget (VITE_API_URL : option string) : string :=
  replace_first "http" "ws" (apiTarget VITE_API_URL).

(** The [rewrite] of the two proxy entries. *)
Definition rewrite_api (path : string) : string := strip_leading "/api" path.
Definition rewrite_ws (path : string) : string := strip_leading "/ws" path.

(** Where the dev server sends a request path: the first entry whose key
    the path starts with, as (target, rewritten path). *)
Definition proxy (VITE_API_URL : option string) (path : string)
  : option (string * string) :=
  if startsWith "/api" path then Some (apiTarget VITE_API_URL, rewrite_api path)
  else if startsWith "/ws" path then Some (wsTarget VITE_API_URL, rewrite_ws path)
  else None.

End Vite.

(** ** hooks/useWebSocket.ts: the connection *)

Definition set_isMounted (b : bool) (w : World) : World :=
  mkWorld (entropy w) (drawn w) (server w) (sent w) (transactions w) (toasts w)
          (timers w) b (isConnected w) (lastMessage w) (console w).

Definition set_isConnected (b : bool) (w : World) : World :=
  mkWorld (entropy w) (drawn w) (server w) (sent w) (transactions w) (toasts w)
          (timers w) (isMounted w) b (lastMessage w) (console w).

Module Connection.

Inductive ReadyState : Type := CONNECTING | OPEN | CLOSING | CLOSED.

(** A [WebSocket] object: its URL, its state, the frames sent on it. *)
Record Socket : Type := mkSocket {
  ws_url : string;
  readyState : ReadyState;
  ws_sent : list string
}.

(** What the hook reads from [window]: the location, and whether
    [new WebSocket(url)] returns (it throws on a URL it cannot use). *)
Record Window : Type := mkWindow {
  protocol : string;
  host : string;
  constructible : string -> bool
}.

(** The refs and the closure variable of the effect (the latter, with
    [isConnected], in the world), the sockets constructed so far (the k-th
    is socket [k]), and the timers of the window: pending [setTimeout]s of
    [connect] and running [setInterval]s of the ping of a socket, each with
    its id and delay; ids are handed out from one counter. *)
Record State : Type := mkState {
  world : World;
  sockets : list Socket;
  wsRef : option nat;
  reconnectTimeoutRef : option nat;
  pingIntervalRef : option nat;
  timeouts : list (nat * N);
  intervals : list (nat * N * nat);
  next_timer : nat;
  journal : list string
}.

Definition set_world (w : World) (c : State) : State :=
  mkState w (sockets c) (wsRef c) (reconnectTimeoutRef c) (pingIntervalRef c)
          (timeouts c) (intervals c) (next_timer c) (journal c).

Definition set_sockets (l : list Socket) (c : State) : State :=
  mkState (world c) l (wsRef c) (reconnectTimeoutRef c) (pingIntervalRef c)
          (timeouts c) (intervals c) (next_timer c) (journal c).

Definition set_wsRef (r : option nat) (c : State) : State :=
  mkState (world c) (sockets c) r (reconnectTimeoutRef c) (pingIntervalRef c)
          (timeouts c) (intervals c) (next_timer c) (journal c).

Definition console_ (line : string) (c : State) : State :=
  mkState (world c) (sockets c) (wsRef c) (reconnectTimeoutRef c) (pingIntervalRef c)
          (timeouts c) (intervals c) (next_timer c) (journal c ++ [line]).

(** [reconnectTimeoutRef.current = window.setTimeout(connect, ms)] *)
Definition schedule_reconnect (ms : N) (c : State) : State :=
  mkState (world c) (sockets c) (wsRef c) (Some (next_timer c)) (pingIntervalRef c)
          (timeouts c ++ [(next_timer c, ms)]) (intervals c) (S (next_timer c))
          (journal c).

(** [pingIntervalRef.current = window.setInterval(ping of socket k, ms)] *)
Definition start_ping (ms : N) (k : nat) (c : State) : State :=
  mkState (world c) (sockets c) (wsRef c) (reconnectTimeoutRef c) (Some (next_timer c))
          (timeouts c) (intervals c ++ [(next_timer c, ms, k)]) (S (next_timer c))
          (journal c).

(** [if (ref.current) clearTimeout(ref.current)], and the same with
    [clearInterval]: either cancels the timer with that id, of either kind;
    the ref keeps its value. *)
Definition clear_timer (ref : option nat) (c : State) : State :=
  match ref with
  | Some i =>
      if Nat.eqb i 0 then c
      else mkState (world c) (sockets c) (wsRef c) (reconnectTimeoutRef c)
                   (pingIntervalRef c)
                   (filter (fun t => t.1 <> i) (timeouts c))
                   (filter (fun t => t.1.1 <> i) (intervals c))
                   (next_timer c) (journal c)
  | None => c
  end.

Definition with_readyState (r : ReadyState) (s : Socket) : Socket :=
  mkSocket (ws_url s) r (ws_sent s).

(** [ws.send(frame)] *)
Definition send (frame : string) (s : Socket) : Socket :=
  mkSocket (ws_url s) (readyState s) (ws_sent s ++ [frame]).

(** [ws.close()]: a socket that is connecting or open starts closing. *)
Definition close (s : Socket) : Socket :=
  match readyState s with
  | CONNECTING | OPEN => with_readyState CLOSING s
  | CLOSING | CLOSED => s
  end.

(** The URL given to [new WebSocket]. *)
Definition wsUrl (win : Window) (url : string) : string :=
  if startsWith "ws" url then url
  else (if String.eqb (protocol win) "https:" then "wss:" else "ws:")
       +:+ "//" +:+ host win +:+ url.

Section Hook.

Context `{FromJSON WSMessage}.
Variable win : Window.
Variable url : string.
Variable reconnectInterval : N.
Variable onMessage : option Subscriber.

Definition connect (c : State) : State :=
  if negb (isMounted (world c)) then c
  else
    let u := wsUrl win url in
    if constructible win u then
      set_wsRef (Some (length (sockets c)))
        (set_sockets (sockets c ++ [mkSocket u CONNECTING []]) c)
    else
      let c1 := console_ "[WS] Connection failed:" c in
      if isMounted (world c1) then schedule_reconnect reconnectInterval c1 else c1.

(** [ws.onopen], for socket [k] *)
Definition onopen (k : nat) (c : State) : State :=
  if negb (isMounted (world c)) then c
  else
    start_ping 25000 k
      (console_ "[WS] Connected" (set_world (set_isConnected true (world c)) c)).

(** The callback of the ping interval of socket [k] *)
Definition ping (k : nat) (c : State) : State :=
  match sockets c !! k with
  | Some s =>
      match readyState s with
      | OPEN => set_sockets (alter (send "ping") k (sockets c)) c
      | _ => c
      end
  | None => c
  end.

(** [ws.onclose] *)
Definition onclose (c : State) : State :=
  if negb (isMounted (world c)) then c
  else
    let c1 := console_ "[WS] Disconnected, reconnecting..."
                (set_world (set_isConnected false (world c)) c) in
    schedule_reconnect reconnectInterval (clear_timer (pingIntervalRef c1) c1).

(** [ws.onerror] *)
Definition onerror (c : State) : State := console_ "[WS] Error:" c.

(** [ws.onmessage] *)
Definition onmessage (data : string) (c : State) : State :=
  set_world (snd (UseWebSocket.onmessage onMessage data (world c))) c.

(** The cleanup of the effect *)
Definition cleanup (c : State) : State :=
  let c1 := set_world (set_isMounted false (world c)) c in
  let c2 := match wsRef c1 with
            | Some k => set_sockets (alter close k (sockets c1)) c1
            | None => c1
            end in
  clear_timer (pingIntervalRef c2) (clear_timer (reconnectTimeoutRef c2) c2).

(** The effect runs: [let isMounted = true; ...; connect()], with
    [useState(false)] for [isConnected] and no timer set before. *)
Definition mount (w : World) : State :=
  connect (mkState (set_isConnected false (set_isMounted true w))
                   [] None None None [] [] 1 []).

(** What can happen next: the browser reports the opening, the closing or
    an error of a socket, or a frame received on it; a timer fires; or the
    component unmounts. *)
Inductive Event : Type :=
  | Opened (k : nat)
  | Closed (k : nat)
  | Errored (k : nat)
  | Received (k : nat) (data : string)
  | TimeoutFired (i : nat)
  | IntervalFired (i : nat)
  | Unmounted.

Definition state_of (k : nat) (c : State) : option ReadyState :=
  readyState <$> sockets c !! k.

(** One event: the browser moves the socket to its new state and runs the
    handler.  [None] when the browser cannot produce the event in this
    state: a socket opens only while connecting, closes once, delivers
    frames only while open; a timer fires only while set; the cleanup runs
    once. *)
Definition step (e : Event) (c : State) : option State :=
  match e with
  | Opened k =>
      match state_of k c with
      | Some CONNECTING =>
          Some (onopen k (set_sockets (alter (with_readyState OPEN) k (sockets c)) c))
      | _ => None
      end
  | Closed k =>
      match state_of k c with
      | Some CLOSED | None => None
      | Some _ =>
          Some (onclose (set_sockets (alter (with_readyState CLOSED) k (sockets c)) c))
      end
  | Errored k =>
      match state_of k c with
      | Some CLOSED | None => None
      | Some _ => Some (onerror c)
      end
  | Received k data =>
      match state_of k c with
      | Some OPEN => Some (onmessage data c)
      | _ => None
      end
  | TimeoutFired i =>
      if bool_decide (i ∈ (timeouts c).*1) then
        Some (connect
                (mkState (world c) (sockets c) (wsRef c) (reconnectTimeoutRef c)
                         (pingIntervalRef c)
                         (filter (fun t => t.1 <> i) (timeouts c))
                         (intervals c) (next_timer c) (journal c)))
      else None
  | IntervalFired i =>
      match List.find (fun t => Nat.eqb t.1.1 i) (intervals c) with
      | Some (_, _, k) => Some (ping k c)
      | None => None
      end
  | Unmounted =>
      if isMounted (world c) then Some (cleanup c) else None
  end.

(** A sequence of events, in order. *)
Fixpoint run (events : list Event) (c : State) : option State :=
  match events with
  | [] => Some c
  | e :: rest =>
      match step e c with
      | Some c' => run rest c'
      | None => None
      end
  end.

(** The states the hook can be in: those a sequence of events leads to
    from the state the effect starts in. *)
Definition reachable (c : State) : Prop :=
  exists w events, run events (mount w) = Some c.

(** The handler given to the hook cannot see the closure variable and the
    state of the hook: it leaves the two flags of the world alone. *)
Definition keeps_flags : Prop :=
  forall subscriber, onMessage = Some subscriber ->
    forall message w,
      isMounted (snd (subscriber message w)) = isMounted w
      /\ isConnected (snd (subscriber message w)) = isConnected w.

(** Socket [k] of a list is open; is not closed yet. *)
Definition open_in (l : list Socket) (k : nat) : Prop :=
  exists s, l !! k = Some s /\ readyState s = OPEN.

Definition live_in (l : list Socket) (k : nat) : Prop :=
  exists s, l !! k = Some s /\ readyState s <> CLOSED.

Definition is_open (c : State) (k : nat) : Prop := open_in (sockets c) k.

Definition is_live (c : State) (k : nat) : Prop := live_in (sockets c) k.

(** What every reachable state satisfies. *)
Record Inv (c : State) : Prop := mkInv {
  inv_next : 0 < next_timer c;
  inv_live : forall k, is_live c k -> wsRef c = Some k;
  inv_timeouts :
    timeouts c = []
    \/ exists i, timeouts c = [(i, reconnectInterval)]
                 /\ reconnectTimeoutRef c = Some i
                 /\ 0 < i < next_timer c
                 /\ isMounted (world c) = true
                 /\ forall k, ~ is_live c k;
  inv_intervals :
    intervals c = []
    \/ exists i k, intervals c = [(i, 25000%N, k)]
                   /\ pingIntervalRef c = Some i
                   /\ 0 < i < next_timer c
                   /\ isMounted (world c) = true
                   /\ is_open c k;
  inv_keepalive :
    isMounted (world c) = true ->
    forall k, is_open c k -> intervals c <> [] /\ isConnected (world c) = true;
  inv_connected :
    isMounted (world c) = true -> isConnected (world c) = true ->
    exists k, is_open c k;
  inv_busy :
    isMounted (world c) = true -> (exists k, is_live c k) \/ timeouts c <> [];
  inv_frames :
    forall s f, s ∈ sockets c -> f ∈ ws_sent s -> f = "ping";
  inv_urls :
    forall s, s ∈ sockets c -> ws_url s = wsUrl win url
}.

End Hook.

End Connection.

Module DemoConnection.

(** A page served over https by the dev server, on which every socket can
    be constructed; the socket of the application. *)
Definition win : Connection.Window :=
  Connection.mkWindow "https:" "localhost:5173" (fun _ => true).

Definition url : string := "/ws/transactions/stream".

Definition w0 : World := mounted Demo.uuids Demo.offline [Demo.tx1].

(** The socket opens, pings once, delivers a status frame and is closed by
    the peer; the reconnect timer fires and the second socket opens. *)
Definition events : list Connection.Event :=
  [Connection.Opened 0; Connection.IntervalFired 1;
   Connection.Received 0 Demo.status_frame; Connection.Closed 0;
   Connection.TimeoutFired 2; Connection.Opened 1].

(** What the browser still reports for the second socket once the
    component has unmounted. *)
Definition late_events : list Connection.Event :=
  [Connection.Errored 1; Connection.Closed 1].

Definition run (evs : list Connection.Event) : option Connection.State :=
  Connection.run (H := Demo.parse_message) win url 3000 (Some App.subscribers) evs
    (Connection.mount win url 3000 w0).

End DemoConnection.

(** * Properties *)

(** ** Basic facts *)

Lemma truthy_nonempty (s : string) : truthy s = true <-> s <> "".
Proof.
  unfold truthy. destruct (String.eqb_spec s "") as [->|Hne]; simpl.
  - split; [discriminate | congruence].
  - split; [auto | reflexivity].
Qed.

Lemma status_literal_truthy (s : TransactionStatus) : truthy (status_literal s) = true.
Proof. destruct s; reflexivity. Qed.

Lemma strict_eq_opt_true (a : string) (b : option string) :
  strict_eq_opt a b = true <-> b = Some a.
Proof.
  destruct b as [s|]; simpl.
  - destruct (String.eqb_spec a s); split; congruence.
  - split; discriminate.
Qed.

Lemma or_else_None (b : string) : or_else None b = b.
Proof. reflexivity. Qed.

Lemma or_else_idem (a : option string) (b : string) :
  or_else a (or_else a b) = or_else a b.
Proof.
  destruct a as [s|]; simpl; [|reflexivity].
  destruct (truthy s); reflexivity.
Qed.

Lemma set_transactions_same (w : World) : set_transactions (transactions w) w = w.
Proof. destruct w; reflexivity. Qed.

Lemma set_transactions_twice (l1 l2 : list Transaction) (w : World) :
  set_transactions l2 (set_transactions l1 w) = set_transactions l2 w.
Proof. reflexivity. Qed.

(** ** The store's event handler *)

Section Reconcile.

Import UseTransactions.

(** The handler never throws; it either maps [reconcile] over the
    collection or leaves the state alone. *)
Lemma handleWSMessage_run (message : WSMessage) (w : World) :
  handleWSMessage message w =
    (Normal tt,
     if accepted message
     then set_transactions (map (reconcile message) (transactions w)) w
     else w).
Proof.
  unfold handleWSMessage, accepted.
  destruct (_ && _); reflexivity.
Qed.

Lemma reconcile_id message tx : id (reconcile message tx) = id tx.
Proof.
  unfold reconcile.
  destruct (strict_eq_opt _ _), (new_status message); reflexivity.
Qed.

Lemma reconcile_other message tx :
  transaction_id message <> Some (id tx) -> reconcile message tx = tx.
Proof.
  intros Hne. unfold reconcile.
  destruct (strict_eq_opt (id tx) (transaction_id message)) eqn:E; [|reflexivity].
  apply strict_eq_opt_true in E. contradiction.
Qed.

Lemma reconcile_status message tx :
  transaction_id message = Some (id tx) ->
  status (reconcile message tx) = default (status tx) (new_status message).
Proof.
  intros Heq. unfold reconcile.
  apply strict_eq_opt_true in Heq. rewrite Heq.
  destruct (new_status message); reflexivity.
Qed.

Lemma reconcile_idem message tx :
  reconcile message (reconcile message tx) = reconcile message tx.
Proof.
  unfold reconcile.
  destruct (strict_eq_opt (id tx) (transaction_id message)) eqn:E,
           (new_status message) eqn:N; simpl; rewrite ?E, ?N; try reflexivity.
  rewrite or_else_idem. reflexivity.
Qed.

Lemma map_reconcile_unmatched message (l : list Transaction) :
  (forall tx, tx ∈ l -> transaction_id message <> Some (id tx)) ->
  map (reconcile message) l = l.
Proof.
  induction l as [|tx l IH]; intros Hall; simpl; [reflexivity|].
  rewrite reconcile_other by (apply Hall; left).
  f_equal. apply IH. intros tx' Hin. apply Hall. right. exact Hin.
Qed.

(** A sequence of events for one id, seen from a record with that id. *)
Lemma deliver_lookup (messages : list WSMessage) :
  forall (w : World) (i : nat) (tx : Transaction),
    transactions w !! i = Some tx ->
    id tx <> "" ->
    (forall m, m ∈ messages ->
       event m = "transaction.status_changed" /\ transaction_id m = Some (id tx)) ->
    exists w' tx',
      deliver handleWSMessage messages w = (Normal tt, w')
      /\ transactions w' !! i = Some tx'
      /\ id tx' = id tx
      /\ status tx' = last_new_status (status tx) messages.
Proof.
  induction messages as [|m ms IH]; intros w i tx Hi Hne Hall.
  - exists w, tx. simpl. auto.
  - destruct (Hall m) as [Hev Htid]; [left|].
    assert (Hacc : accepted m = true).
    { unfold accepted. rewrite Hev, Htid. simpl. apply truthy_nonempty, Hne. }
    simpl. unfold bind. rewrite handleWSMessage_run, Hacc.
    set (w1 := set_transactions _ w).
    destruct (IH w1 i (reconcile m tx)) as (w' & tx' & Hrun & Hlk & Hid & Hst).
    + unfold w1. simpl. rewrite list_lookup_fmap, Hi. reflexivity.
    + rewrite reconcile_id. exact Hne.
    + intros m' Hin. rewrite reconcile_id. apply Hall. right. exact Hin.
    + exists w', tx'. rewrite Hrun. repeat split; auto.
      * rewrite Hid. apply reconcile_id.
      * rewrite Hst. unfold last_new_status. simpl.
        rewrite reconcile_status by exact Htid. reflexivity.
Qed.

End Reconcile.

(** ** Reconciliation from events *)

(** C2 (as stated, refuted): a stored pending record whose id is the empty
    string keeps its status when the status event for that id arrives:
    the handler's guard treats an empty [transaction_id] as absent. *)
Lemma status_changed_empty_id_ignored :
  transaction_id (Demo.status_changed "" procesado None) = Some (id Demo.tx_noid)
  /\ new_status (Demo.status_changed "" procesado None) = Some procesado
  /\ UseTransactions.handleWSMessage (Demo.status_changed "" procesado None)
       (mounted Demo.uuids Demo.offline [Demo.tx_noid])
     = (Normal tt, mounted Demo.uuids Demo.offline [Demo.tx_noid])
  /\ status Demo.tx_noid = pendiente.
Proof. repeat split. Qed.

(** C2 (amended): if the store holds a transaction whose id X is a
    non-empty string and the frame
    [{event: 'transaction.status_changed', transaction_id: X,
      old_status, new_status: 'procesado', timestamp}]
    reaches the store's handler, the handler returns normally and the store
    then holds, at the same position, the record with id X and status
    [procesado]; every stored record with id X has status [procesado]. *)
Theorem status_changed_reconciles
    (w : World) (i : nat) (tx : Transaction)
    (old : option TransactionStatus) (ts : option string) :
  transactions w !! i = Some tx ->
  id tx <> "" ->
  let message :=
    mkWSMessage "transaction.status_changed" (Some (id tx)) old (Some procesado) ts None in
  exists w',
    UseTransactions.handleWSMessage message w = (Normal tt, w')
    /\ (exists tx', transactions w' !! i = Some tx'
                    /\ id tx' = id tx /\ status tx' = procesado)
    /\ (forall t, t ∈ transactions w' -> id t = id tx -> status t = procesado).
Proof.
  intros Hi Hne message.
  assert (Hacc : accepted message = true).
  { unfold accepted. simpl. apply truthy_nonempty, Hne. }
  rewrite handleWSMessage_run, Hacc. eexists. split; [reflexivity|]. simpl. split.
  - exists (UseTransactions.reconcile message tx).
    rewrite list_lookup_fmap, Hi. repeat split.
    + apply reconcile_id.
    + rewrite reconcile_status; reflexivity.
  - intros t Hin Hid.
    apply list_elem_of_fmap in Hin as (t0 & -> & _).
    rewrite reconcile_id in Hid.
    rewrite reconcile_status; [reflexivity|]. simpl. congruence.
Qed.

Lemma status_changed_reconciles_witness :
  exists w',
    UseTransactions.handleWSMessage (Demo.status_changed "tx-1" procesado None)
      (mounted Demo.uuids Demo.offline [Demo.tx2; Demo.tx1]) = (Normal tt, w')
    /\ (exists tx', transactions w' !! 1 = Some tx'
                    /\ id tx' = "tx-1" /\ status tx' = procesado)
    /\ (forall t, t ∈ transactions w' -> id t = "tx-1" -> status t = procesado).
Proof.
  apply (status_changed_reconciles
           (mounted Demo.uuids Demo.offline [Demo.tx2; Demo.tx1]) 1 Demo.tx1
           (Some pendiente) None).
  - reflexivity.
  - discriminate.
Defined.

(** C3 (as stated, refuted): (a) for a stored record whose id is the empty
    string the events for that id are ignored, so the stored status is not
    the [new_status] of the last event; (b) when the last event of the
    sequence carries no [new_status], the stored status is the one of an
    earlier event. *)
Lemma last_event_status_counterexample :
  (status <$> transactions
     (snd (deliver UseTransactions.handleWSMessage
             [Demo.status_changed "" procesado None]
             (mounted Demo.uuids Demo.offline [Demo.tx_noid])))
   = [pendiente]
   /\ new_status <$> last [Demo.status_changed "" procesado None]
      = Some (Some procesado))
  /\
  (status <$> transactions
     (snd (deliver UseTransactions.handleWSMessage
             [Demo.status_changed "tx-1" procesado None; Demo.status_changed_bare "tx-1"]
             (mounted Demo.uuids Demo.offline [Demo.tx1])))
   = [procesado]
   /\ new_status <$> last [Demo.status_changed "tx-1" procesado None;
                           Demo.status_changed_bare "tx-1"]
      = Some None).
Proof. repeat split. Qed.

(** C3 (amended): for every stored transaction with a non-empty id and every
    finite sequence of status events for that id, applied in receipt order
    by the store's handler, the stored status afterwards is the
    [new_status] of the last event of the sequence that carries one (the
    prior status when none does); in particular it is the [new_status] of
    the last event whenever that event carries one.  No timestamp or
    sequence number is compared. *)
Theorem last_applied_wins
    (w : World) (i : nat) (tx : Transaction) (messages : list WSMessage) :
  transactions w !! i = Some tx ->
  id tx <> "" ->
  (forall m, m ∈ messages ->
     event m = "transaction.status_changed" /\ transaction_id m = Some (id tx)) ->
  exists w' tx',
    deliver UseTransactions.handleWSMessage messages w = (Normal tt, w')
    /\ transactions w' !! i = Some tx'
    /\ id tx' = id tx
    /\ status tx' = last_new_status (status tx) messages
    /\ (forall m s, last messages = Some m -> new_status m = Some s -> status tx' = s).
Proof.
  intros Hi Hne Hall.
  destruct (deliver_lookup messages w i tx Hi Hne Hall) as (w' & tx' & Hrun & Hlk & Hid & Hst).
  exists w', tx'. repeat split; auto.
  intros m s Hlast Hnew. rewrite Hst.
  apply last_Some in Hlast as [front ->].
  unfold last_new_status. rewrite foldl_app. simpl. rewrite Hnew. reflexivity.
Qed.

Lemma last_applied_wins_witness :
  exists w' tx',
    deliver UseTransactions.handleWSMessage
      [Demo.status_changed "tx-1" procesado None;
       Demo.status_changed "tx-1" fallido (Some "2025-02-01T00:00:00Z")]
      (mounted Demo.uuids Demo.offline [Demo.tx1]) = (Normal tt, w')
    /\ transactions w' !! 0 = Some tx'
    /\ id tx' = "tx-1"
    /\ status tx' = fallido
    /\ (forall m s,
          last [Demo.status_changed "tx-1" procesado None;
                Demo.status_changed "tx-1" fallido (Some "2025-02-01T00:00:00Z")]
            = Some m ->
          new_status m = Some s -> status tx' = s).
Proof.
  apply (last_applied_wins (mounted Demo.uuids Demo.offline [Demo.tx1]) 0 Demo.tx1
           [Demo.status_changed "tx-1" procesado None;
            Demo.status_changed "tx-1" fallido (Some "2025-02-01T00:00:00Z")]).
  - reflexivity.
  - discriminate.
  - intros m Hin. apply list_elem_of_In in Hin. simpl in Hin.
    destruct Hin as [<-|[<-|[]]]; split; reflexivity.
Defined.

(** C4: applying the same status event twice through the store's handler
    leaves the same state (and the same normal completion) as applying it
    once, for every starting state and every message. *)
Theorem handleWSMessage_idempotent (message : WSMessage) (w : World) :
  (UseTransactions.handleWSMessage message ;;;
   UseTransactions.handleWSMessage message) w
  = UseTransactions.handleWSMessage message w.
Proof.
  unfold bind. rewrite handleWSMessage_run.
  destruct (accepted message) eqn:Hacc; rewrite handleWSMessage_run, Hacc;
    [|reflexivity].
  simpl. rewrite set_transactions_twice, map_map.
  do 2 f_equal. apply map_ext. intros tx. apply reconcile_idem.
Qed.

(** C5: a status event whose [transaction_id] is the id of no stored
    transaction leaves the whole state unchanged (no record is created)
    and the handler completes normally. *)
Theorem handleWSMessage_unknown_id (message : WSMessage) (w : World) :
  (forall tx, tx ∈ transactions w -> transaction_id message <> Some (id tx)) ->
  UseTransactions.handleWSMessage message w = (Normal tt, w).
Proof.
  intros Hnone. rewrite handleWSMessage_run.
  destruct (accepted message); [|reflexivity].
  rewrite map_reconcile_unmatched by exact Hnone.
  rewrite set_transactions_same. reflexivity.
Qed.

Lemma handleWSMessage_unknown_id_witness :
  UseTransactions.handleWSMessage (Demo.status_changed "tx-9" procesado None)
    (mounted Demo.uuids Demo.offline [Demo.tx2; Demo.tx1])
  = (Normal tt, mounted Demo.uuids Demo.offline [Demo.tx2; Demo.tx1]).
Proof.
  apply (handleWSMessage_unknown_id (Demo.status_changed "tx-9" procesado None)
           (mounted Demo.uuids Demo.offline [Demo.tx2; Demo.tx1])).
  intros tx Hin. apply list_elem_of_In in Hin. simpl in Hin.
  destruct Hin as [<-|[<-|[]]]; discriminate.
Defined.

(** C10: the store's handler completes normally and changes nothing but the
    collection; the collection keeps its length and order; at every position
    the record keeps [id], [user_id], [monto], [tipo] and [created_at]; a
    record whose id is not the event's [transaction_id] is unchanged; the
    status changes only to the [new_status] the event carries (an event
    without [new_status] changes no record at all); and [updated_at] keeps
    its prior value when the event carries no timestamp. *)
Theorem handleWSMessage_frame (message : WSMessage) (w : World) :
  exists w',
    UseTransactions.handleWSMessage message w = (Normal tt, w')
    /\ w' = set_transactions (transactions w') w
    /\ length (transactions w') = length (transactions w)
    /\ forall i tx, transactions w !! i = Some tx ->
         exists tx',
           transactions w' !! i = Some tx'
           /\ id tx' = id tx /\ user_id tx' = user_id tx /\ monto tx' = monto tx
           /\ tipo tx' = tipo tx /\ created_at tx' = created_at tx
           /\ (transaction_id message <> Some (id tx) -> tx' = tx)
           /\ (new_status message = None -> tx' = tx)
           /\ (status tx' <> status tx -> new_status message = Some (status tx'))
           /\ (timestamp message = None -> updated_at tx' = updated_at tx).
Proof.
  rewrite handleWSMessage_run. eexists. split; [reflexivity|].
  destruct (accepted message).
  - simpl. split; [reflexivity|]. split; [apply length_map|].
    intros i tx Hi. exists (UseTransactions.reconcile message tx).
    rewrite list_lookup_fmap, Hi. split; [reflexivity|].
    unfold UseTransactions.reconcile.
    destruct (strict_eq_opt (id tx) (transaction_id message)) eqn:E,
             (new_status message) as [s|] eqn:N; simpl;
      repeat split; try congruence.
    + intros Hne. apply strict_eq_opt_true in E. contradiction.
    + intros ->. reflexivity.
  - split; [symmetry; apply set_transactions_same|]. split; [reflexivity|].
    intros i tx Hi. exists tx. repeat split; auto; congruence.
Qed.

Lemma handleWSMessage_frame_witness :
  exists w',
    UseTransactions.handleWSMessage (Demo.status_changed "tx-1" procesado None)
      (mounted Demo.uuids Demo.offline [Demo.tx2; Demo.tx1]) = (Normal tt, w')
    /\ transactions w'
       = [Demo.tx2;
          mkTransaction "tx-1" "user-1" "100.50" ingreso procesado
                        "2025-01-01T00:00:00Z" "2025-01-01T00:00:00Z"].
Proof.
  destruct (handleWSMessage_frame (Demo.status_changed "tx-1" procesado None)
              (mounted Demo.uuids Demo.offline [Demo.tx2; Demo.tx1]))
    as (w' & Hrun & _).
  exists w'. split; [exact Hrun|].
  injection Hrun as <-. reflexivity.
Defined.

(** ** The API client *)

Section Client.

Context {T : Type} `{FromJSON T}.

(** What one call of [request] does, by the answer of the remote store. *)
Lemma request_run (path : string) (options : Api.RequestInit) (w : World) :
  Api.request path options w =
    let req := Api.fetch_args path options in
    let w' := set_sent (sent w ++ [req]) w in
    match server w (sent w) req with
    | None => (Threw (TypeError "Failed to fetch"), w')
    | Some r =>
        if ok r then
          match JSON_parse (response_body r) with
          | Some v => (Normal v, w')
          | None => (Threw (SyntaxError "Unexpected token in JSON"), w')
          end
        else
          (Threw (Error (if truthy (response_body r) then response_body r
                         else "HTTP " +:+ pretty (http_status r))), w')
    end.
Proof.
  unfold Api.request, bind, fetch. simpl.
  destruct (server w (sent w) _) as [r|]; [|reflexivity].
  destruct (ok r); simpl; [|reflexivity].
  unfold json. destruct (JSON_parse _); reflexivity.
Qed.

Lemma request_transactions (path : string) (options : Api.RequestInit) (w : World) :
  transactions (snd (Api.request path options w)) = transactions w.
Proof.
  rewrite request_run. simpl.
  destruct (server w (sent w) _) as [r|]; [|reflexivity].
  destruct (ok r); [|reflexivity].
  destruct (JSON_parse _); reflexivity.
Qed.

Lemma request_sent (path : string) (options : Api.RequestInit) (w : World) :
  sent (snd (Api.request path options w)) = (sent w ++ [Api.fetch_args path options])%list
  /\ drawn (snd (Api.request path options w)) = drawn w
  /\ entropy (snd (Api.request path options w)) = entropy w.
Proof.
  rewrite request_run. simpl.
  destruct (server w (sent w) _) as [r|]; [|auto].
  destruct (ok r); [|auto].
  destruct (JSON_parse _); auto.
Qed.

End Client.

(** C8 (as stated, refuted): a successful response whose body is not JSON
    (here: status 200 with an empty body) makes the call reject, with the
    decoder's SyntaxError. *)
Lemma request_success_can_reject :
  ok (mkResponse true 200 "") = true
  /\ fst (Api.request (H := Demo.parse_transaction) "/transactions/create"
            (Api.mkRequestInit (Some "POST") None None)
            (mounted Demo.uuids (Demo.always (mkResponse true 200 "")) []))
     = Threw (SyntaxError "Unexpected token in JSON").
Proof. split; reflexivity. Qed.

(** C8 (amended): for every request issued through the API client to which
    the remote store responds: if the response is not ok the call throws an
    [Error] whose message is the response body when that body is non-empty
    and otherwise ["HTTP "] followed by the status code; if the response is
    ok the client throws no error of its own and the call completes as the
    JSON decoding of the body does: with the decoded value, or with the
    decoder's rejection when the body is not JSON. *)
Theorem request_error_surface {T : Type} `{FromJSON T}
    (path : string) (options : Api.RequestInit) (w : World) (response : Response) :
  server w (sent w) (Api.fetch_args path options) = Some response ->
  (ok response = false -> response_body response <> "" ->
     fst (Api.request path options w) = Threw (Error (response_body response)))
  /\ (ok response = false -> response_body response = "" ->
        fst (Api.request path options w)
        = Threw (Error ("HTTP " +:+ pretty (http_status response))))
  /\ (ok response = true ->
        fst (Api.request path options w)
        = match JSON_parse (response_body response) with
          | Some v => Normal v
          | None => Threw (SyntaxError "Unexpected token in JSON")
          end).
Proof.
  intros Hsrv. rewrite request_run. simpl. rewrite Hsrv.
  repeat split; intros Hok.
  - intros Hne. rewrite Hok. simpl.
    apply truthy_nonempty in Hne. rewrite Hne. reflexivity.
  - intros ->. rewrite Hok. reflexivity.
  - rewrite Hok. destruct (JSON_parse _); reflexivity.
Qed.

Lemma request_error_surface_witness :
  fst (Api.request (H := Demo.parse_transaction) "/transactions/create"
         Api.no_options (mounted Demo.uuids (Demo.always (mkResponse false 429 "")) []))
  = Threw (Error "HTTP 429")
  /\ fst (Api.request (H := Demo.parse_transaction) "/transactions/create"
            Api.no_options
            (mounted Demo.uuids (Demo.always (mkResponse false 402 "quota exceeded")) []))
     = Threw (Error "quota exceeded")
  /\ fst (Api.request (H := Demo.parse_transaction) "/transactions/create"
            Api.no_options
            (mounted Demo.uuids (Demo.always (mkResponse true 201 Demo.tx1_body)) []))
     = Normal Demo.tx1.
Proof.
  split; [|split].
  - apply (request_error_surface (H := Demo.parse_transaction) "/transactions/create"
             Api.no_options
             (mounted Demo.uuids (Demo.always (mkResponse false 429 "")) [])
             (mkResponse false 429 "")); reflexivity.
  - apply (request_error_surface (H := Demo.parse_transaction) "/transactions/create"
             Api.no_options
             (mounted Demo.uuids (Demo.always (mkResponse false 402 "quota exceeded")) [])
             (mkResponse false 402 "quota exceeded")); [reflexivity|reflexivity|discriminate].
  - destruct (request_error_surface (H := Demo.parse_transaction) "/transactions/create"
             Api.no_options
             (mounted Demo.uuids (Demo.always (mkResponse true 201 Demo.tx1_body)) [])
             (mkResponse true 201 Demo.tx1_body) eq_refl) as (_ & _ & Hok).
    rewrite (Hok eq_refl). reflexivity.
Defined.

(** ** Creation *)

Section Create.

Context `{FromJSON Transaction} `{ToJSON NewTransaction}.

(** One invocation draws one UUID and sends it as the [Idempotency-Key]
    of the single request it issues. *)
Lemma createTransaction_key (data : NewTransaction) (w : World) :
  let w' := snd (Api.createTransaction data w) in
  idempotency_keys w' = (idempotency_keys w ++ [Some (entropy w (drawn w))])%list
  /\ drawn w' = S (drawn w)
  /\ entropy w' = entropy w.
Proof.
  unfold Api.createTransaction, bind, randomUUID. simpl.
  match goal with |- context [Api.request ?p ?o ?w0] =>
    destruct (request_sent p o w0) as (Hs & Hd & He) end.
  unfold idempotency_keys. rewrite Hs, Hd, He. simpl.
  rewrite map_app. simpl. repeat split.
Qed.

Lemma createTransaction_transactions (data : NewTransaction) (w : World) :
  transactions (snd (Api.createTransaction data w)) = transactions w.
Proof.
  unfold Api.createTransaction, bind, randomUUID.
  rewrite request_transactions. reflexivity.
Qed.

(** When the creation call fails the store is left alone. *)
Lemma create_failure (data : NewTransaction) (w w1 : World) (e : exn) :
  Api.createTransaction data w = (Threw e, w1) ->
  UseTransactions.create data w = (Threw e, w1)
  /\ transactions w1 = transactions w.
Proof.
  intros Hrun. split.
  - unfold UseTransactions.create, bind. rewrite Hrun. reflexivity.
  - rewrite <- (createTransaction_transactions data w), Hrun. reflexivity.
Qed.

End Create.

(** C9: when the creation call resolves with a transaction, the store's
    create path returns it and prepends it to the collection: it becomes the
    first element and the records held before follow in their prior order. *)
Theorem create_prepends `{FromJSON Transaction} `{ToJSON NewTransaction}
    (data : NewTransaction) (w w1 : World) (tx : Transaction) :
  Api.createTransaction data w = (Normal tx, w1) ->
  exists w',
    UseTransactions.create data w = (Normal tx, w')
    /\ transactions w' = tx :: transactions w
    /\ transactions w' !! 0 = Some tx
    /\ (forall i, transactions w' !! S i = transactions w !! i).
Proof.
  intros Hrun.
  assert (Hsame : transactions w1 = transactions w).
  { rewrite <- (createTransaction_transactions data w), Hrun. reflexivity. }
  unfold UseTransactions.create, bind. rewrite Hrun. simpl.
  eexists. split; [reflexivity|]. simpl. rewrite Hsame. auto.
Qed.

(** C1 (the code at the failing input): the first attempt to create
    [Demo.data1] is answered 503 and the caller retries the same creation;
    the two requests carry two different idempotency keys, one fresh UUID
    per invocation. *)
Theorem createTransaction_retry_mints_new_key
    `{FromJSON Transaction} `{ToJSON NewTransaction} :
  fst (Api.createTransaction Demo.data1
         (mounted Demo.uuids (Demo.always (mkResponse false 503 "unavailable")) []))
    = Threw (Error "unavailable")
  /\ idempotency_keys
       (snd (Api.createTransaction Demo.data1
          (snd (Api.createTransaction Demo.data1
             (mounted Demo.uuids (Demo.always (mkResponse false 503 "unavailable")) [])))))
     = [Some "uuid-0"; Some "uuid-1"].
Proof. split; vm_compute; reflexivity. Qed.

Lemma create_prepends_witness :
  exists w',
    UseTransactions.create (H := Demo.parse_transaction) (H0 := Demo.stringify_new)
      Demo.data1
      (mounted Demo.uuids (Demo.always (mkResponse true 201 Demo.tx1_body)) [Demo.tx2])
    = (Normal Demo.tx1, w')
    /\ transactions w' = [Demo.tx1; Demo.tx2]
    /\ transactions w' !! 0 = Some Demo.tx1
    /\ (forall i, transactions w' !! S i = [Demo.tx2] !! i).
Proof.
  apply (@create_prepends Demo.parse_transaction Demo.stringify_new Demo.data1
           (mounted Demo.uuids (Demo.always (mkResponse true 201 Demo.tx1_body))
                    [Demo.tx2])
           (snd (Api.createTransaction (H := Demo.parse_transaction)
                   (H0 := Demo.stringify_new) Demo.data1
                   (mounted Demo.uuids
                      (Demo.always (mkResponse true 201 Demo.tx1_body)) [Demo.tx2])))
           Demo.tx1).
  vm_compute. reflexivity.
Defined.

(** ** Dispatch to the subscribers *)

(** The store's subscriber always completes normally. *)
Lemma store_subscriber_total (message : WSMessage) (w : World) :
  fst (UseTransactions.handleWSMessage message w) = Normal tt.
Proof. rewrite handleWSMessage_run. reflexivity. Qed.

(** C6 (as stated, refuted): with a first subscriber that throws, the
    combined handler completes with that exception and the toast subscriber,
    registered after it, never receives the status event: no toast is added,
    although the toast subscriber on its own adds one for this event.  The
    socket's handler catches the exception and logs it. *)
Lemma failing_subscriber_blocks_toast :
  App.onWSMessage Demo.failing Toast.handleWSMessage
    (Demo.status_changed "tx-1" procesado None)
    (mounted Demo.uuids Demo.offline [Demo.tx1])
  = (Threw (TypeError "subscriber failed"), mounted Demo.uuids Demo.offline [Demo.tx1])
  /\ toasts (snd (Toast.handleWSMessage (Demo.status_changed "tx-1" procesado None)
                    (mounted Demo.uuids Demo.offline [Demo.tx1])))
     = [mkToastItem "uuid-0" "Transaction procesado" "tx-1... → procesado"]
  /\ UseWebSocket.onmessage (H := Demo.parse_message)
       (Some (App.onWSMessage Demo.failing Toast.handleWSMessage))
       Demo.status_frame
       (mounted Demo.uuids Demo.offline [Demo.tx1])
     = (Normal tt,
        mkWorld Demo.uuids 0 Demo.offline [] [Demo.tx1] [] [] true true
                (Some (Demo.status_changed "tx-1" procesado None))
                [console_warn "[WS] Failed to parse message:" Demo.status_frame]).
Proof. repeat split. Qed.

(** C6 (amended): the combined handler invokes the store's subscriber and
    then the toast subscriber, in that order, with no isolation between
    them: when the first completes normally the second receives the same
    message in the state the first left; when the first throws, the second
    is not invoked and the exception is the completion of the combined
    handler.  With the subscribers the component registers, the store's
    subscriber never throws, so the toast subscriber receives every
    message the combined handler is given. *)
Theorem onWSMessage_dispatch (first second : Subscriber) (message : WSMessage) (w : World) :
  (forall w1, first message w = (Normal tt, w1) ->
     App.onWSMessage first second message w = second message w1)
  /\ (forall e w1, first message w = (Threw e, w1) ->
        App.onWSMessage first second message w = (Threw e, w1))
  /\ App.subscribers message w
     = Toast.handleWSMessage message (snd (UseTransactions.handleWSMessage message w)).
Proof.
  unfold App.subscribers, App.onWSMessage, bind. repeat split.
  - intros w1 ->. reflexivity.
  - intros e w1 ->. reflexivity.
  - rewrite handleWSMessage_run. reflexivity.
Qed.

Lemma onWSMessage_dispatch_witness :
  toasts (snd (App.subscribers (Demo.status_changed "tx-1" procesado None)
                 (mounted Demo.uuids Demo.offline [Demo.tx1])))
  = [mkToastItem "uuid-0" "Transaction procesado" "tx-1... → procesado"].
Proof.
  destruct (onWSMessage_dispatch UseTransactions.handleWSMessage Toast.handleWSMessage
              (Demo.status_changed "tx-1" procesado None)
              (mounted Demo.uuids Demo.offline [Demo.tx1])) as (_ & _ & ->).
  reflexivity.
Defined.

(** ** Classification of inbound frames *)




(** * More properties of the client *)

(** ** The API client: what goes on the wire *)

Lemma fetch_args_header (path : string) (options : Api.RequestInit) (k : string) :
  headers (Api.fetch_args path options) !! k
  = match default ∅ (Api.init_headers options) !! k with
    | Some v => Some v
    | None => if String.eqb k "Content-Type" then Some "application/json" else None
    end.
Proof.
  unfold Api.fetch_args. simpl.
  destruct (default ∅ (Api.init_headers options) !! k) as [v|] eqn:E.
  - apply lookup_union_Some_l. exact E.
  - rewrite lookup_union_r by exact E.
    destruct (String.eqb_spec k "Content-Type") as [->|Hne].
    + apply lookup_singleton_eq.
    + apply lookup_singleton_ne. congruence.
Qed.

Lemma request_world {T : Type} `{FromJSON T}
    (path : string) (options : Api.RequestInit) (w : World) :
  snd (Api.request path options w)
  = set_sent (sent w ++ [Api.fetch_args path options]) w.
Proof.
  rewrite request_run. simpl.
  destruct (server w (sent w) _) as [r|]; [|reflexivity].
  destruct (ok r); [|reflexivity].
  destruct (JSON_parse _); reflexivity.
Qed.

(** X1: the request that [request] gives to [fetch] has the URL ["/api"]
    followed by the path, the caller's method and body, and the caller's
    headers; the only header added is [Content-Type: application/json], and
    only when the caller gave no [Content-Type] of its own. *)
Theorem fetch_args_merge (path : string) (options : Api.RequestInit) (k : string) :
  url (Api.fetch_args path options) = "/api" +:+ path
  /\ method (Api.fetch_args path options) = Api.init_method options
  /\ body (Api.fetch_args path options) = Api.init_body options
  /\ headers (Api.fetch_args path options) !! k
     = match default ∅ (Api.init_headers options) !! k with
       | Some v => Some v
       | None => if String.eqb k "Content-Type" then Some "application/json" else None
       end.
Proof.
  repeat split. apply fetch_args_header.
Qed.

(** X2: whatever the remote store answers (a success, an error status, a
    body that does not decode, or nothing at all), one call of [request]
    issues exactly one [fetch] and changes nothing else: the client never
    retries and never touches the local state. *)
Theorem request_single_attempt {T : Type} `{FromJSON T}
    (path : string) (options : Api.RequestInit) (w : World) :
  snd (Api.request path options w)
  = set_sent (sent w ++ [Api.fetch_args path options]) w.
Proof. apply request_world. Qed.

(** X3: one call of [createTransaction] draws exactly one UUID and sends
    exactly one request: a POST to ["/api/transactions/create"] whose body
    is the stringified data and whose headers are the drawn UUID as
    [Idempotency-Key] and the JSON content type, and nothing else. *)
Theorem createTransaction_wire `{FromJSON Transaction} `{ToJSON NewTransaction}
    (data : NewTransaction) (w : World) :
  exists req,
    snd (Api.createTransaction data w)
    = set_sent (sent w ++ [req]) (set_drawn (S (drawn w)) w)
    /\ url req = "/api/transactions/create"
    /\ method req = Some "POST"
    /\ body req = Some (JSON_stringify data)
    /\ (forall k,
          headers req !! k
          = if String.eqb k "Idempotency-Key" then Some (entropy w (drawn w))
            else if String.eqb k "Content-Type" then Some "application/json"
            else None).
Proof.
  eexists. unfold Api.createTransaction, bind, randomUUID.
  split; [rewrite request_world; reflexivity|].
  repeat split. intros k.
  rewrite (fetch_args_header "/transactions/create"
             (Api.mkRequestInit (Some "POST") (Some (JSON_stringify data))
                (Some {[ "Idempotency-Key" := entropy w (drawn w) ]})) k). simpl.
  destruct (String.eqb_spec k "Idempotency-Key") as [->|Hne].
  - rewrite lookup_singleton_eq. reflexivity.
  - rewrite lookup_singleton_ne by congruence. reflexivity.
Qed.

(** X4: [process] sends one POST to the async-process endpoint with the id
    appended as given, without a body and without an idempotency key, and
    never changes the local collection: on success as on failure the
    stored statuses are left to the push channel.  It completes normally
    exactly when the store answers ok with a body that decodes. *)
Theorem process_leaves_store `{FromJSON Api.Job} (i : string) (w : World) :
  let req := mkFetchRequest ("/api/transactions/async-process?transaction_id=" +:+ i)
               (Some "POST") None {[ "Content-Type" := "application/json" ]} in
  snd (UseTransactions.process i w) = set_sent (sent w ++ [req]) w
  /\ transactions (snd (UseTransactions.process i w)) = transactions w
  /\ headers req !! "Idempotency-Key" = None
  /\ (fst (UseTransactions.process i w) = Normal tt
      <-> exists r job, server w (sent w) req = Some r /\ ok r = true
                        /\ JSON_parse (response_body r) = Some job).
Proof.
  intros req.
  assert (Hreq : Api.fetch_args ("/transactions/async-process?transaction_id=" +:+ i)
                   (Api.mkRequestInit (Some "POST") None None) = req).
  { unfold Api.fetch_args, req. simpl. f_equal; try apply (left_id ∅ (∪)). }
  unfold UseTransactions.process, Api.processTransaction, bind.
  rewrite request_run, Hreq. simpl.
  destruct (server w (sent w) req) as [r|]; simpl.
  - destruct (ok r) eqn:Hok; simpl.
    + destruct (JSON_parse (response_body r)) as [job|] eqn:Hj; simpl.
      * repeat split; eauto.
      * repeat split; try discriminate. intros (r' & job & Hr & _ & Hj').
        injection Hr as <-. congruence.
    + repeat split; try discriminate. intros (r' & job & Hr & Hok' & _).
      injection Hr as <-. congruence.
  - repeat split; try discriminate. intros (r' & job & Hr & _). discriminate.
Qed.

(** ** The full fetch *)

(** X5: [refresh] never throws and always ends with [isLoading] false,
    after exactly one GET of ["/api/transactions?limit=50"].  When the store
    answers ok with a body that decodes, the collection is replaced by the
    decoded list, whatever was held before, and the error is cleared; in
    every other case the collection is kept and the error is the message of
    the failure: the network failure, the response body (or ["HTTP "] and
    the status when the body is empty), or the decoder's message. *)
Theorem refresh_outcome `{FromJSON (list Transaction)}
    (s : TransactionsHook.State) (w : World) :
  let req := mkFetchRequest "/api/transactions?limit=50" None None
               {[ "Content-Type" := "application/json" ]} in
  exists s' w',
    TransactionsHook.refresh s w = (Normal tt, s', w')
    /\ TransactionsHook.isLoading s' = false
    /\ sent w' = (sent w ++ [req])%list
    /\ match server w (sent w) req with
       | None =>
           TransactionsHook.error s' = Some "Failed to fetch"
           /\ transactions w' = transactions w
       | Some r =>
           if ok r then
             match JSON_parse (response_body r) with
             | Some data =>
                 TransactionsHook.error s' = None /\ transactions w' = data
             | None =>
                 TransactionsHook.error s' = Some "Unexpected token in JSON"
                 /\ transactions w' = transactions w
             end
           else
             TransactionsHook.error s'
             = Some (if truthy (response_body r) then response_body r
                     else "HTTP " +:+ pretty (http_status r))
             /\ transactions w' = transactions w
       end.
Proof.
  intros req.
  assert (Hreq : Api.fetch_args ("/transactions?limit=" +:+ pretty 50%N) Api.no_options
                 = req).
  { unfold Api.fetch_args, req. simpl. f_equal; try apply (left_id ∅ (∪)). }
  unfold TransactionsHook.refresh, Api.listTransactions.
  rewrite request_run, Hreq. simpl.
  destruct (server w (sent w) req) as [r|]; simpl.
  - destruct (ok r); simpl.
    + destruct (JSON_parse (response_body r)) as [data|]; simpl;
        eexists _, _; repeat split.
    + eexists _, _; repeat split.
  - eexists _, _; repeat split.
Qed.

(** ** Toasts *)

(** What the toast subscriber does with one message. *)
Lemma toast_run (message : WSMessage) (w : World) :
  Toast.handleWSMessage message w =
    (Normal tt,
     if String.eqb (event message) "transaction.status_changed" then
       let u := entropy w (drawn w) in
       let st := or_else (status_literal <$> new_status message) "unknown" in
       let tx := or_else (slice0 8 <$> transaction_id message) "???" in
       set_timers (timers w ++ [(4000%N, u)])
         (set_toasts (toasts w ++ [mkToastItem u ("Transaction " +:+ st)
                                               (tx +:+ "... → " +:+ st)])
            (set_drawn (S (drawn w)) w))
     else w).
Proof.
  unfold Toast.handleWSMessage.
  destruct (String.eqb (event message) "transaction.status_changed"); reflexivity.
Qed.

(** X6: the toast subscriber ignores every message that is not a status
    event.  For a status event it appends exactly one toast, after the ones
    shown, and schedules exactly one removal, 4000 ms later, for the id of
    that toast, a freshly drawn UUID; the store is not touched.  The toast
    names the new status, or ["unknown"] when the event carries none, and
    the first eight characters of the transaction id, or ["???"] when the
    id is absent or empty. *)
Theorem toast_for_status_event (message : WSMessage) (w : World) :
  exists w',
    Toast.handleWSMessage message w = (Normal tt, w')
    /\ transactions w' = transactions w
    /\ (event message <> "transaction.status_changed" -> w' = w)
    /\ (event message = "transaction.status_changed" ->
        let st := default "unknown" (status_literal <$> new_status message) in
        let tx := match transaction_id message with
                  | Some (String c rest) => slice0 8 (String c rest)
                  | _ => "???"
                  end in
        toasts w' = (toasts w ++ [mkToastItem (entropy w (drawn w))
                                    ("Transaction " +:+ st)
                                    (tx +:+ "... → " +:+ st)])%list
        /\ timers w' = (timers w ++ [(4000%N, entropy w (drawn w))])%list
        /\ drawn w' = S (drawn w)).
Proof.
  rewrite toast_run. eexists. split; [reflexivity|].
  destruct (String.eqb_spec (event message) "transaction.status_changed") as [Hev|Hev].
  - split; [reflexivity|]. split; [congruence|]. intros _. simpl.
    assert (Hst : or_else (status_literal <$> new_status message) "unknown"
                  = default "unknown" (status_literal <$> new_status message)).
    { destruct (new_status message) as [s|]; simpl; [|reflexivity].
      rewrite status_literal_truthy. reflexivity. }
    assert (Htx : or_else (slice0 8 <$> transaction_id message) "???"
                  = match transaction_id message with
                    | Some (String c rest) => slice0 8 (String c rest)
                    | _ => "???"
                    end).
    { destruct (transaction_id message) as [[|c rest]|]; reflexivity. }
    rewrite Hst, Htx. repeat split.
  - split; [reflexivity|]. split; [reflexivity|]. contradiction.
Qed.

Lemma toast_for_status_event_witness :
  toasts (snd (Toast.handleWSMessage (Demo.status_changed_bare "")
                 (mounted Demo.uuids Demo.offline [Demo.tx1])))
  = [mkToastItem "uuid-0" "Transaction unknown" "???... → unknown"].
Proof.
  destruct (toast_for_status_event (Demo.status_changed_bare "")
              (mounted Demo.uuids Demo.offline [Demo.tx1]))
    as (w' & Hrun & _ & _ & Hst).
  rewrite Hrun. simpl. destruct (Hst eq_refl) as (-> & _). reflexivity.
Defined.

Section ToastExpiry.

Import ToastTimers.

(** Whether a removal for the id of [t] is among the scheduled ones. *)
Let scheduled (ts : list (N * string)) (t : ToastItem) : bool :=
  existsb (String.eqb (toast_id t)) (map snd ts).

Lemma filter_filter_andb {A} (f g : A -> bool) (l : list A) :
  List.filter f (List.filter g l) = List.filter (fun x => g x && f x) l.
Proof.
  induction l as [|x l IH]; simpl; [reflexivity|].
  destruct (g x); simpl; [destruct (f x)|]; rewrite IH; reflexivity.
Qed.

Lemma filter_all {A} (f : A -> bool) (l : list A) :
  (forall x, In x l -> f x = true) -> List.filter f l = l.
Proof.
  induction l as [|x l IH]; intros Hall; simpl; [reflexivity|].
  rewrite (Hall x) by (left; reflexivity). f_equal. apply IH.
  intros y Hy. apply Hall. right. exact Hy.
Qed.

Lemma filter_none {A} (f : A -> bool) (l : list A) :
  (forall x, In x l -> f x = false) -> List.filter f l = [].
Proof.
  induction l as [|x l IH]; intros Hall; simpl; [reflexivity|].
  rewrite (Hall x) by (left; reflexivity). apply IH.
  intros y Hy. apply Hall. right. exact Hy.
Qed.

(** Firing at least as many times as removals are scheduled removes exactly
    the toasts whose id has a scheduled removal. *)
Lemma fire_n_all (n : nat) :
  forall w, length (timers w) <= n ->
    fst (fire_n n w) = Normal tt
    /\ toasts (snd (fire_n n w))
       = List.filter (fun t => negb (scheduled (timers w) t)) (toasts w)
    /\ timers (snd (fire_n n w)) = [].
Proof.
  induction n as [|n IH]; intros w Hlen.
  - destruct (timers w) eqn:E; [|simpl in Hlen; lia].
    simpl. rewrite E. repeat split. symmetry. apply filter_all. reflexivity.
  - simpl. unfold bind, fire.
    destruct (timers w) as [|[ms i] rest] eqn:E.
    + destruct (IH w) as (H1 & H2 & H3); [rewrite E; simpl; lia|].
      rewrite H1, H2, H3, E. repeat split.
    + simpl in Hlen. unfold expire, setToasts, modify.
      match goal with |- context [fire_n n ?w1] =>
        destruct (IH w1) as (H1 & H2 & H3); [simpl; lia|];
        rewrite H1, H2, H3 end.
      simpl. repeat split. rewrite filter_filter_andb.
      apply filter_ext. intros t. unfold scheduled. simpl.
      rewrite negb_orb. reflexivity.
Qed.

(** The toasts and removals that a sequence of messages adds. *)
Lemma deliver_toasts (messages : list WSMessage) :
  forall w, exists added,
    fst (deliver Toast.handleWSMessage messages w) = Normal tt
    /\ toasts (snd (deliver Toast.handleWSMessage messages w))
       = (toasts w ++ added)%list
    /\ timers (snd (deliver Toast.handleWSMessage messages w))
       = (timers w ++ map (fun t => (4000%N, toast_id t)) added)%list
    /\ length added <= length messages
    /\ (forall t, In t added ->
          exists j, j < length messages /\ toast_id t = entropy w (drawn w + j)).
Proof.
  induction messages as [|m ms IH]; intros w.
  - exists []. simpl. rewrite !app_nil_r. repeat split; auto. intros t [].
  - simpl. unfold bind. rewrite toast_run.
    destruct (String.eqb (event m) "transaction.status_changed").
    + match goal with |- context [deliver _ ms ?w1] =>
        destruct (IH w1) as (added & H1 & H2 & H3 & H4 & H5) end.
      eexists (_ :: added). simpl in *.
      destruct (deliver Toast.handleWSMessage ms _) as [r w2]. simpl in *.
      subst r. rewrite H2, H3, <- !app_assoc. simpl.
      repeat split; [lia|].
      intros t [<-|Hin].
      * exists 0. simpl. split; [lia|]. rewrite Nat.add_0_r. reflexivity.
      * destruct (H5 t Hin) as (j & Hj & ->). exists (S j).
        split; [lia|]. f_equal. lia.
    + destruct (IH w) as (added & H1 & H2 & H3 & H4 & H5).
      exists added. destruct (deliver Toast.handleWSMessage ms w) as [r w2].
      simpl in *. subst r. repeat split; auto.
      intros t Hin. destruct (H5 t Hin) as (j & Hj & ->). exists j. split; [lia|auto].
Qed.

End ToastExpiry.

(** X7: every toast expires.  Starting with no removal pending, after any
    sequence of messages has been handled by the toast subscriber and the
    scheduled removals have fired, the toasts shown are again the ones
    shown before, provided the UUIDs drawn meanwhile are not ids of those
    toasts. *)
Theorem toasts_expire (messages : list WSMessage) (w : World) :
  timers w = [] ->
  (forall t j, In t (toasts w) -> j < length messages ->
     toast_id t <> entropy w (drawn w + j)) ->
  exists w',
    (deliver Toast.handleWSMessage messages ;;;
     ToastTimers.fire_n (length messages)) w = (Normal tt, w')
    /\ toasts w' = toasts w
    /\ timers w' = []
    /\ transactions w' = transactions w.
Proof.
  intros Hnone Hfresh. unfold bind.
  destruct (deliver_toasts messages w) as (added & H1 & H2 & H3 & H4 & H5).
  assert (Htx : transactions (snd (deliver Toast.handleWSMessage messages w))
                = transactions w).
  { clear. revert w. induction messages as [|m ms IH]; intros w; [reflexivity|].
    simpl. unfold bind. rewrite toast_run.
    destruct (String.eqb (event m) "transaction.status_changed"); rewrite IH;
      reflexivity. }
  destruct (deliver Toast.handleWSMessage messages w) as [r w1]. simpl in *. subst r.
  rewrite Hnone in H3. simpl in H3.
  destruct (fire_n_all (length messages) w1) as (F1 & F2 & F3).
  { rewrite H3, length_map. exact H4. }
  assert (Htx2 : transactions (snd (ToastTimers.fire_n (length messages) w1))
                 = transactions w1).
  { clear. generalize (length messages). intros n. revert w1.
    induction n as [|n IH]; intros w1; [reflexivity|].
    simpl. unfold bind, ToastTimers.fire.
    destruct (timers w1) as [|[ms i] rest]; simpl; rewrite IH; reflexivity. }
  destruct (ToastTimers.fire_n (length messages) w1) as [r w2]. simpl in *. subst r.
  exists w2. split; [reflexivity|]. split; [|split; [exact F3|congruence]].
  rewrite F2, H2, H3, List.filter_app.
  rewrite (filter_all _ (toasts w)), (filter_none _ added).
  - apply app_nil_r.
  - intros t Hin. apply negb_false_iff, existsb_exists.
    exists (toast_id t). split; [|apply String.eqb_refl].
    rewrite map_map. simpl. apply in_map_iff. exists t. auto.
  - intros t Hin. apply negb_true_iff.
    destruct (existsb _ _) eqn:E; [|reflexivity].
    apply existsb_exists in E as (i & Hi & Heq).
    apply String.eqb_eq in Heq. rewrite map_map in Hi. simpl in Hi.
    apply in_map_iff in Hi as (t' & <- & Hin').
    destruct (H5 t' Hin') as (j & Hj & Hid).
    exfalso. apply (Hfresh t j Hin Hj). congruence.
Qed.

Lemma toasts_expire_witness :
  exists w',
    (deliver Toast.handleWSMessage
       [Demo.status_changed "tx-1" procesado None; Demo.status_changed_bare "tx-2"] ;;;
     ToastTimers.fire_n 2) (mounted Demo.uuids Demo.offline [Demo.tx1])
    = (Normal tt, w')
    /\ toasts w' = []
    /\ timers w' = []
    /\ transactions w' = [Demo.tx1].
Proof.
  apply (toasts_expire
           [Demo.status_changed "tx-1" procesado None; Demo.status_changed_bare "tx-2"]
           (mounted Demo.uuids Demo.offline [Demo.tx1])).
  - reflexivity.
  - intros t j [].
Defined.

(** ** The selection *)

Lemma find_first_match {A} (p : A -> bool) (l : list A) (x : A) :
  List.find p l = Some x
  <-> exists i, l !! i = Some x /\ p x = true
                /\ forall j y, j < i -> l !! j = Some y -> p y = false.
Proof.
  induction l as [|a l IH]; simpl.
  - split; [discriminate|]. intros (i & Hi & _). destruct i; discriminate.
  - destruct (p a) eqn:Hpa.
    + split.
      * intros [= ->]. exists 0. repeat split; auto. intros j y Hj. lia.
      * intros ([|i] & Hi & Hpx & Hbefore).
        -- simpl in Hi. congruence.
        -- specialize (Hbefore 0 a ltac:(lia) eq_refl). congruence.
    + rewrite IH. split.
      * intros (i & Hi & Hpx & Hbefore). exists (S i). repeat split; auto.
        intros [|j] y Hj Hy; simpl in Hy; [congruence|].
        apply (Hbefore j y); [lia|exact Hy].
      * intros ([|i] & Hi & Hpx & Hbefore); simpl in Hi; [congruence|].
        exists i. repeat split; auto.
        intros j y Hj Hy. apply (Hbefore (S j) y); [lia|exact Hy].
Qed.

Lemma find_map_same {A} (p : A -> bool) (f : A -> A) (l : list A) :
  (forall x, p (f x) = p x) ->
  List.find p (map f l) = f <$> List.find p l.
Proof.
  intros Hp. induction l as [|a l IH]; simpl; [reflexivity|].
  rewrite Hp. destruct (p a); [reflexivity|exact IH].
Qed.

Lemma selected_has_id (selectedId : option string) (txs : list Transaction)
    (tx : Transaction) :
  Selection.selectedTransaction selectedId txs = Some tx ->
  selectedId = Some (id tx) /\ id tx <> "".
Proof.
  unfold Selection.selectedTransaction.
  destruct (truthy_opt selectedId) eqn:Ht; simpl; [|discriminate].
  intros Hfind. apply find_first_match in Hfind as (i & _ & Hp & _).
  apply strict_eq_opt_true in Hp. subst selectedId.
  split; [reflexivity|]. apply truthy_nonempty, Ht.
Qed.

(** X8: the selected transaction is the first stored record whose id is the
    selected id; there is none when nothing is selected, when the selected
    id is the empty string, or when no stored record has that id. *)
Theorem selectedTransaction_first_match
    (selectedId : option string) (txs : list Transaction) (tx : Transaction) :
  Selection.selectedTransaction selectedId txs = Some tx
  <-> selectedId = Some (id tx) /\ id tx <> ""
      /\ exists i, txs !! i = Some tx
                   /\ forall j t, j < i -> txs !! j = Some t -> id t <> id tx.
Proof.
  unfold Selection.selectedTransaction. split.
  - destruct (truthy_opt selectedId) eqn:Ht; simpl; [|discriminate].
    intros Hfind. apply find_first_match in Hfind as (i & Hi & Hp & Hbefore).
    apply strict_eq_opt_true in Hp. subst selectedId.
    split; [reflexivity|]. split; [apply truthy_nonempty, Ht|].
    exists i. split; [exact Hi|]. intros j t Hj Ht' Heq.
    specialize (Hbefore j t Hj Ht').
    assert (strict_eq_opt (id t) (Some (id tx)) = true)
      by (apply strict_eq_opt_true; congruence).
    congruence.
  - intros (-> & Hne & i & Hi & Hbefore).
    unfold truthy_opt. apply truthy_nonempty in Hne. rewrite Hne. cbn [negb].
    apply find_first_match. exists i. split; [exact Hi|].
    split; [apply strict_eq_opt_true; reflexivity|].
    intros j t Hj Ht'. destruct (strict_eq_opt (id t) (Some (id tx))) eqn:E;
      [|reflexivity].
    apply strict_eq_opt_true in E. exfalso. apply (Hbefore j t Hj Ht'). congruence.
Qed.

(** X9: the selection follows the push channel.  When a transaction is
    selected and a status event for its id with a new status reaches the
    store's handler, the selected transaction afterwards is the same record
    with the new status (and the event's timestamp, if any): same id,
    user, amount, kind and creation time. *)
Theorem selection_follows_status
    (selectedId : option string) (w : World) (tx : Transaction)
    (message : WSMessage) (s : TransactionStatus) :
  Selection.selectedTransaction selectedId (transactions w) = Some tx ->
  event message = "transaction.status_changed" ->
  transaction_id message = Some (id tx) ->
  new_status message = Some s ->
  exists tx',
    Selection.selectedTransaction selectedId
      (transactions (snd (UseTransactions.handleWSMessage message w))) = Some tx'
    /\ status tx' = s
    /\ id tx' = id tx /\ user_id tx' = user_id tx /\ monto tx' = monto tx
    /\ tipo tx' = tipo tx /\ created_at tx' = created_at tx
    /\ updated_at tx' = or_else (timestamp message) (updated_at tx).
Proof.
  intros Hsel Hev Htid Hnew.
  assert (Hne : id tx <> "").
  { apply selected_has_id in Hsel. tauto. }
  exists (UseTransactions.reconcile message tx). split.
  - rewrite handleWSMessage_run.
    assert (Hacc : accepted message = true).
    { unfold accepted. rewrite Hev, Htid. simpl. apply truthy_nonempty, Hne. }
    rewrite Hacc. simpl.
    unfold Selection.selectedTransaction in *.
    destruct (truthy_opt selectedId); simpl in *; [|discriminate].
    rewrite find_map_same, Hsel; [reflexivity|].
    intros t. rewrite reconcile_id. reflexivity.
  - unfold UseTransactions.reconcile. rewrite Htid, Hnew. simpl.
    rewrite String.eqb_refl. repeat split.
Qed.

Lemma selection_follows_status_witness :
  exists tx',
    Selection.selectedTransaction (Some "tx-1")
      (transactions
         (snd (UseTransactions.handleWSMessage
                 (Demo.status_changed "tx-1" procesado (Some "2025-03-01T00:00:00Z"))
                 (mounted Demo.uuids Demo.offline [Demo.tx2; Demo.tx1]))))
    = Some tx'
    /\ status tx' = procesado
    /\ id tx' = "tx-1" /\ user_id tx' = "user-1" /\ monto tx' = "100.50"
    /\ tipo tx' = ingreso /\ created_at tx' = "2025-01-01T00:00:00Z"
    /\ updated_at tx' = "2025-03-01T00:00:00Z".
Proof.
  apply (selection_follows_status (Some "tx-1")
           (mounted Demo.uuids Demo.offline [Demo.tx2; Demo.tx1]) Demo.tx1
           (Demo.status_changed "tx-1" procesado (Some "2025-03-01T00:00:00Z"))
           procesado); reflexivity.
Defined.

(** X10: when the creation call resolves with a transaction whose id is not
    empty, [handleCreate] prepends it to the collection and selects it: it
    is the selected transaction afterwards.  When the creation call fails,
    the exception reaches the caller and neither the collection nor the
    selection changes. *)
Theorem handleCreate_selects_created `{FromJSON Transaction} `{ToJSON NewTransaction}
    (data : NewTransaction) (selectedId : option string) (w w1 : World) :
  (forall tx, Api.createTransaction data w = (Normal tx, w1) -> id tx <> "" ->
     exists w',
       Selection.handleCreate data selectedId w = (Normal tt, Some (id tx), w')
       /\ transactions w' = tx :: transactions w
       /\ Selection.selectedTransaction (Some (id tx)) (transactions w') = Some tx)
  /\ (forall e, Api.createTransaction data w = (Threw e, w1) ->
        Selection.handleCreate data selectedId w = (Threw e, selectedId, w1)
        /\ transactions w1 = transactions w).
Proof.
  split.
  - intros tx Hrun Hne.
    assert (Hsame : transactions w1 = transactions w).
    { rewrite <- (createTransaction_transactions data w), Hrun. reflexivity. }
    unfold Selection.handleCreate, UseTransactions.create, bind.
    rewrite Hrun. simpl. eexists. split; [reflexivity|]. simpl.
    split; [congruence|].
    unfold Selection.selectedTransaction. simpl.
    apply truthy_nonempty in Hne. rewrite Hne. simpl.
    rewrite String.eqb_refl. reflexivity.
  - intros e Hrun. destruct (create_failure data w w1 e Hrun) as (Hc & Hsame).
    unfold Selection.handleCreate. rewrite Hc. auto.
Qed.

Lemma handleCreate_selects_created_witness :
  exists w',
    Selection.handleCreate (H := Demo.parse_transaction) (H0 := Demo.stringify_new)
      Demo.data1 None
      (mounted Demo.uuids (Demo.always (mkResponse true 201 Demo.tx1_body)) [Demo.tx2])
    = (Normal tt, Some "tx-1", w')
    /\ transactions w' = [Demo.tx1; Demo.tx2]
    /\ Selection.selectedTransaction (Some "tx-1") (transactions w') = Some Demo.tx1.
Proof.
  destruct (@handleCreate_selects_created Demo.parse_transaction Demo.stringify_new
              Demo.data1 None
              (mounted Demo.uuids (Demo.always (mkResponse true 201 Demo.tx1_body))
                       [Demo.tx2])
              (snd (Api.createTransaction (H := Demo.parse_transaction)
                      (H0 := Demo.stringify_new) Demo.data1
                      (mounted Demo.uuids
                         (Demo.always (mkResponse true 201 Demo.tx1_body)) [Demo.tx2]))))
    as (Hok & _).
  apply (Hok Demo.tx1); [vm_compute; reflexivity|discriminate].
Defined.

(** ** The list of transactions *)

Lemma card_facts `{Intl} (selectedId : option string) (tx : Transaction) :
  let c := TransactionList.card selectedId tx in
  TransactionList.key c = id tx
  /\ TransactionList.onClick c = tx
  /\ (TransactionList.selected c = true <-> selectedId = Some (id tx))
  /\ (forall i, TransactionList.process_button c = Some i
                <-> status tx = pendiente /\ i = id tx).
Proof.
  simpl. repeat split; try apply strict_eq_opt_true.
  - destruct (status tx); try discriminate. reflexivity.
  - destruct (status tx); congruence.
  - intros [-> ->]. reflexivity.
Qed.

(** X11: the list shows the loading state exactly when [isLoading] is true,
    otherwise the empty state exactly when there is no transaction, and
    otherwise one card per transaction, in the order of the collection.
    Each card selects its own transaction on click, is marked selected
    exactly when its id is the selected id, and offers the Process button,
    for its own id, exactly when its status is [pendiente]. *)
Theorem render_cards `{Intl} (txs : list Transaction) (selectedId : option string)
    (isLoading : option bool) :
  (TransactionList.render txs selectedId isLoading = TransactionList.Loading
   <-> isLoading = Some true)
  /\ (TransactionList.render txs selectedId isLoading = TransactionList.EmptyState
      <-> isLoading <> Some true /\ txs = [])
  /\ (forall cards,
        TransactionList.render txs selectedId isLoading = TransactionList.Cards cards ->
        length cards = length txs
        /\ forall k tx, txs !! k = Some tx ->
             exists c,
               cards !! k = Some c
               /\ TransactionList.key c = id tx
               /\ TransactionList.onClick c = tx
               /\ (TransactionList.selected c = true <-> selectedId = Some (id tx))
               /\ (forall i, TransactionList.process_button c = Some i
                             <-> status tx = pendiente /\ i = id tx)).
Proof.
  assert (Hcards : forall cards,
            TransactionList.Cards (TransactionList.card selectedId <$> txs)
            = TransactionList.Cards cards ->
            length cards = length txs
            /\ forall k tx, txs !! k = Some tx ->
                 exists c,
                   cards !! k = Some c
                   /\ TransactionList.key c = id tx
                   /\ TransactionList.onClick c = tx
                   /\ (TransactionList.selected c = true <-> selectedId = Some (id tx))
                   /\ (forall i, TransactionList.process_button c = Some i
                                 <-> status tx = pendiente /\ i = id tx)).
  { intros cards [= <-]. split; [apply length_fmap|].
    intros k tx Hk. exists (TransactionList.card selectedId tx).
    rewrite list_lookup_fmap, Hk. split; [reflexivity|].
    apply (card_facts selectedId tx). }
  unfold TransactionList.render.
  destruct isLoading as [[|]|]; simpl.
  - split; [tauto|]. split; [|discriminate].
    split; [discriminate|]. intros [Hc _]. congruence.
  - destruct txs as [|t txs].
    + split; [split; discriminate|]. split; [|discriminate].
      split; [|reflexivity]. intros _. split; [discriminate|reflexivity].
    + split; [split; discriminate|]. split; [|exact Hcards].
      split; [discriminate|]. intros [_ Hc]. discriminate.
  - destruct txs as [|t txs].
    + split; [split; discriminate|]. split; [|discriminate].
      split; [|reflexivity]. intros _. split; [discriminate|reflexivity].
    + split; [split; discriminate|]. split; [|exact Hcards].
      split; [discriminate|]. intros [_ Hc]. discriminate.
Qed.

(** X12: once a status event has moved a transaction out of [pendiente],
    the list no longer offers to process it: after the store's handler has
    applied a status event for a non-empty id with a new status other than
    [pendiente], no card with that id has a Process button. *)
Theorem processed_loses_button `{Intl}
    (w : World) (message : WSMessage) (x : string) (s : TransactionStatus)
    (selectedId : option string) (isLoading : option bool)
    (cards : list TransactionList.Card) (c : TransactionList.Card) :
  event message = "transaction.status_changed" ->
  transaction_id message = Some x ->
  x <> "" ->
  new_status message = Some s ->
  s <> pendiente ->
  TransactionList.render
    (transactions (snd (UseTransactions.handleWSMessage message w)))
    selectedId isLoading = TransactionList.Cards cards ->
  c ∈ cards ->
  TransactionList.key c = x ->
  TransactionList.process_button c = None.
Proof.
  intros Hev Htid Hne Hnew Hs Hrender Hin Hkey.
  assert (Hacc : accepted message = true).
  { unfold accepted. rewrite Hev, Htid. simpl. apply truthy_nonempty, Hne. }
  rewrite handleWSMessage_run, Hacc in Hrender. simpl in Hrender.
  unfold TransactionList.render in Hrender.
  destruct (default false isLoading); [discriminate|].
  assert (Hc : exists tx,
             c = TransactionList.card selectedId
                   (UseTransactions.reconcile message tx)).
  { destruct (transactions w) as [|t0 l0]; simpl in Hrender; [discriminate|].
    injection Hrender as <-.
    change (c ∈ TransactionList.card selectedId
                  <$> (UseTransactions.reconcile message <$> (t0 :: l0))) in Hin.
    apply list_elem_of_fmap in Hin as (t' & -> & Hin).
    apply list_elem_of_fmap in Hin as (tx & -> & _). eauto. }
  destruct Hc as (tx & ->).
  simpl in *. rewrite reconcile_id in Hkey.
  rewrite reconcile_status by congruence. rewrite Hnew. simpl.
  destruct s; congruence.
Qed.

Lemma processed_loses_button_witness :
  TransactionList.process_button
    (TransactionList.card (H := DemoView.intl) None
       (mkTransaction "tx-1" "user-1" "100.50" ingreso procesado
          "2025-01-01T00:00:00Z" "2025-01-01T00:00:00Z"))
  = None.
Proof.
  apply (processed_loses_button (H := DemoView.intl)
           (mounted Demo.uuids Demo.offline [Demo.tx2; Demo.tx1])
           (Demo.status_changed "tx-1" procesado None) "tx-1" procesado None None
           [TransactionList.card (H := DemoView.intl) None Demo.tx2;
            TransactionList.card (H := DemoView.intl) None
              (mkTransaction "tx-1" "user-1" "100.50" ingreso procesado
                 "2025-01-01T00:00:00Z" "2025-01-01T00:00:00Z")]);
    try reflexivity; try discriminate.
  apply list_elem_of_In. right. left. reflexivity.
Defined.

(** ** The creation form *)

(** X13: a submit with an empty amount, or while a submit is in flight,
    does nothing: the parent's [onSubmit] is not called, no UUID is drawn,
    no request is sent, and the form and the parent's state stay as they
    are. *)
Theorem submit_blocked {P : Type} (onSubmit : NewTransaction -> Handler P)
    (s : TransactionForm.State) (p : P) (w : World) :
  TransactionForm.monto s = "" \/ TransactionForm.isSubmitting s = true ->
  TransactionForm.handleSubmit onSubmit (s, p) w = (Normal tt, (s, p), w).
Proof.
  unfold TransactionForm.handleSubmit.
  intros [-> | ->]; [reflexivity|].
  rewrite orb_true_r. reflexivity.
Qed.

Lemma submit_blocked_witness :
  TransactionForm.submit (H := Demo.parse_transaction) (H0 := Demo.stringify_new)
    (TransactionForm.mkState "100.50" ingreso true, None)
    (mounted Demo.uuids (Demo.always (mkResponse true 201 Demo.tx1_body)) [])
  = (Normal tt, (TransactionForm.mkState "100.50" ingreso true, None),
     mounted Demo.uuids (Demo.always (mkResponse true 201 Demo.tx1_body)) []).
Proof.
  apply (submit_blocked
           (Selection.handleCreate (H := Demo.parse_transaction)
              (H0 := Demo.stringify_new))
           (TransactionForm.mkState "100.50" ingreso true) None
           (mounted Demo.uuids (Demo.always (mkResponse true 201 Demo.tx1_body)) [])).
  right. reflexivity.
Defined.

(** X14: a submit of the mounted form with a non-empty amount and no submit
    in flight draws a fresh UUID as the [user_id] and creates the
    transaction with the form's amount and kind.  If the creation resolves,
    the form ends idle with the amount cleared and the kind kept, and the
    created transaction is first in the collection and selected.  If the
    creation fails, the exception reaches the caller, the form ends idle
    with the amount and kind kept (ready to submit again), and the
    collection and the selection are unchanged. *)
Theorem submit_outcome `{FromJSON Transaction} `{ToJSON NewTransaction}
    (s : TransactionForm.State) (selectedId : option string) (w w1 : World) :
  TransactionForm.monto s <> "" ->
  TransactionForm.isSubmitting s = false ->
  let data := mkNewTransaction (entropy w (drawn w))
                (TransactionForm.monto s) (TransactionForm.tipo s) in
  (forall tx,
     Api.createTransaction data (set_drawn (S (drawn w)) w) = (Normal tx, w1) ->
     exists w',
       TransactionForm.submit (s, selectedId) w
       = (Normal tt,
          (TransactionForm.mkState "" (TransactionForm.tipo s) false, Some (id tx)),
          w')
       /\ transactions w' = tx :: transactions w)
  /\ (forall e,
        Api.createTransaction data (set_drawn (S (drawn w)) w) = (Threw e, w1) ->
        TransactionForm.submit (s, selectedId) w
        = (Threw e,
           (TransactionForm.mkState (TransactionForm.monto s)
              (TransactionForm.tipo s) false, selectedId),
           w1)
        /\ transactions w1 = transactions w).
Proof.
  intros Hmonto Hidle data.
  apply truthy_nonempty in Hmonto.
  unfold TransactionForm.submit, TransactionForm.handleSubmit.
  rewrite Hmonto, Hidle. simpl. fold data.
  unfold Selection.handleCreate, UseTransactions.create, bind.
  split.
  - intros tx Hrun.
    pose proof (createTransaction_transactions data (set_drawn (S (drawn w)) w)) as Ht.
    rewrite Hrun in *. simpl in *.
    eexists. split; [reflexivity|]. simpl. congruence.
  - intros e Hrun.
    pose proof (createTransaction_transactions data (set_drawn (S (drawn w)) w)) as Ht.
    rewrite Hrun in *. simpl in *. split; [reflexivity|exact Ht].
Qed.

Lemma submit_outcome_witness :
  exists w',
    TransactionForm.submit (H := Demo.parse_transaction) (H0 := Demo.stringify_new)
      (TransactionForm.mkState "100.50" ingreso false, None)
      (mounted Demo.uuids (Demo.always (mkResponse true 201 Demo.tx1_body)) [Demo.tx2])
    = (Normal tt, (TransactionForm.mkState "" ingreso false, Some "tx-1"), w')
    /\ transactions w' = [Demo.tx1; Demo.tx2].
Proof.
  destruct (@submit_outcome Demo.parse_transaction Demo.stringify_new
              (TransactionForm.mkState "100.50" ingreso false) None
              (mounted Demo.uuids (Demo.always (mkResponse true 201 Demo.tx1_body))
                       [Demo.tx2])
              (snd (Api.createTransaction (H := Demo.parse_transaction)
                      (H0 := Demo.stringify_new)
                      (mkNewTransaction "uuid-0" "100.50" ingreso)
                      (set_drawn 1
                         (mounted Demo.uuids
                            (Demo.always (mkResponse true 201 Demo.tx1_body))
                            [Demo.tx2]))))
              ltac:(discriminate) eq_refl) as (Hok & _).
  apply (Hok Demo.tx1). vm_compute. reflexivity.
Defined.

(** ** The development proxy *)

Lemma prefix_nil (s : string) : String.prefix "" s = true.
Proof. destruct s; reflexivity. Qed.

Lemma prefix_append (p s : string) : String.prefix p (p +:+ s) = true.
Proof.
  induction p as [|c p IH].
  - apply prefix_nil.
  - change (String c p +:+ s) with (String c (p +:+ s)). simpl.
    destruct (Ascii.ascii_dec c c); [exact IH|congruence].
Qed.

Lemma skip_append (p s : string) : skip (String.length p) (p +:+ s) = s.
Proof.
  induction p as [|c p IH]; [reflexivity|].
  change (String c p +:+ s) with (String c (p +:+ s)). simpl. exact IH.
Qed.

Lemma strip_leading_append (p s : string) : strip_leading p (p +:+ s) = s.
Proof. unfold strip_leading. rewrite prefix_append. apply skip_append. Qed.

Lemma replace_first_leading (p r s : string) :
  replace_first p r (p +:+ s) = r +:+ s.
Proof.
  assert (Hgen : forall t, String.prefix p t = true ->
                   replace_first p r t = r +:+ skip (String.length p) t).
  { intros t Ht. destruct t; cbn [replace_first]; rewrite Ht; reflexivity. }
  rewrite Hgen by apply prefix_append. rewrite skip_append. reflexivity.
Qed.

(** X15: the dev server sends every URL of the API client, ["/api"]
    followed by the caller's path, to the API target with exactly the
    caller's path, and every path under ["/ws"] to the socket target with
    the prefix removed. *)
Theorem proxy_routes (VITE_API_URL : option string) (path : string)
    (options : Api.RequestInit) :
  Vite.proxy VITE_API_URL (url (Api.fetch_args path options))
    = Some (Vite.apiTarget VITE_API_URL, path)
  /\ Vite.proxy VITE_API_URL ("/ws" +:+ path)
     = Some (Vite.wsTarget VITE_API_URL, path).
Proof.
  unfold Vite.proxy, Vite.rewrite_api, Vite.rewrite_ws, startsWith. split.
  - change (url (Api.fetch_args path options)) with ("/api" +:+ path).
    rewrite prefix_append, strip_leading_append. reflexivity.
  - assert (Hno : String.prefix "/api" ("/ws" +:+ path) = false) by reflexivity.
    rewrite Hno, prefix_append, strip_leading_append. reflexivity.
Qed.

(** X16: the socket target is the API target with its scheme turned from
    http to ws, so that an https target gives a wss target, with the same
    host and port; without the environment variable, or with an empty one,
    it is [ws://localhost:8000]. *)
Theorem wsTarget_scheme (rest : string) :
  Vite.wsTarget (Some ("http" +:+ rest)) = "ws" +:+ rest
  /\ Vite.wsTarget (Some ("https" +:+ rest)) = "wss" +:+ rest
  /\ Vite.wsTarget None = "ws://localhost:8000"
  /\ Vite.wsTarget (Some "") = "ws://localhost:8000".
Proof.
  unfold Vite.wsTarget, Vite.apiTarget. repeat split.
  - change (or_else (Some ("http" +:+ rest)) "http://localhost:8000")
      with ("http" +:+ rest).
    apply replace_first_leading.
Qed.
